(** * IORedisAdapter: a next-auth adapter over a Redis hash store

    Shallow embedding of [src/lib/IORedisAdapter.ts]: the adapter with the
    date codec, at the head of the file (the variant with logging that
    follows it there is not modelled).  The development has five layers:

    - [JsDate]: the part of ECMAScript's [Date] the adapter relies on
      ([toISOString], [Date.parse], [new Date(string)]);
    - [JsRegExp]: a small regular-expression matcher and [isoDateRE];
    - [Js]: the JavaScript values of an entity record, objects as finite
      maps, and what a call leaves (a value returned or an exception);
    - [Redis]: the commands of the ioredis client the adapter issues, over
      an explicit store, with the replies and errors of a Redis server;
    - [Adapter]: the adapter's functions, in a state-and-exception monad.

    The definitions come first; the facts about them follow, and the
    properties the specification states come last. *)

From Stdlib Require Import ZArith Lia Ascii String List Bool.
From stdpp Require Import gmap strings list fin_maps.

(** ** ECMAScript dates *)

Module JsDate.
Local Open Scope Z_scope.

(** A time value is a number of milliseconds since the epoch, or NaN
    ([None]).  [TimeClip] is ECMAScript's: times beyond 8.64e15 ms are NaN. *)
Definition msPerDay : Z := 86400000.
Definition maxTime : Z := 8640000000000000.

Definition TimeClip (t : Z) : option Z :=
  if Z.abs t <=? maxTime then Some t else None.

Definition Day (t : Z) : Z := t / msPerDay.
Definition TimeWithinDay (t : Z) : Z := t mod msPerDay.

Definition InLeapYear (y : Z) : bool :=
  (y mod 4 =? 0) && (negb (y mod 100 =? 0) || (y mod 400 =? 0)).

Definition DayFromYear (y : Z) : Z :=
  365 * (y - 1970) + (y - 1969) / 4 - (y - 1901) / 100 + (y - 1601) / 400.

(** The year of a day number: the largest [y] with [DayFromYear y <= d].
    Computed from an estimate that is at most one year off. *)
Definition YearFromDay (d : Z) : Z :=
  let y := 1970 + (400 * d) / 146097 in
  if d <? DayFromYear y then y - 1
  else if DayFromYear (y + 1) <=? d then y + 1
  else y.

(** First day (within the year) of month [m] (0..11), and of month 12 for
    the end of the year; [leap] is 1 in a leap year. *)
Definition monthStart (m leap : Z) : Z :=
  match m with
  | 0 => 0
  | 1 => 31
  | 2 => 59 + leap
  | 3 => 90 + leap
  | 4 => 120 + leap
  | 5 => 151 + leap
  | 6 => 181 + leap
  | 7 => 212 + leap
  | 8 => 243 + leap
  | 9 => 273 + leap
  | 10 => 304 + leap
  | 11 => 334 + leap
  | _ => 365 + leap
  end.

Definition leapDays (y : Z) : Z := if InLeapYear y then 1 else 0.

(** [MonthFromTime], on the day within the year. *)
Definition MonthFromDay (diy leap : Z) : Z :=
  if diy <? 31 then 0
  else if diy <? 59 + leap then 1
  else if diy <? 90 + leap then 2
  else if diy <? 120 + leap then 3
  else if diy <? 151 + leap then 4
  else if diy <? 181 + leap then 5
  else if diy <? 212 + leap then 6
  else if diy <? 243 + leap then 7
  else if diy <? 273 + leap then 8
  else if diy <? 304 + leap then 9
  else if diy <? 334 + leap then 10
  else 11.

(** The broken-down UTC fields of a time value; [month] is 1..12 as it is
    written in the ISO format. *)
Record fields : Type := Fields {
  year : Z; month : Z; date : Z;
  hours : Z; minutes : Z; seconds : Z; millis : Z
}.

Definition fieldsOfTime (t : Z) : fields :=
  let d := Day (t) in
  let tod := TimeWithinDay t in
  let y := YearFromDay d in
  let leap := leapDays y in
  let diy := d - DayFromYear y in
  let m := MonthFromDay diy leap in
  {| year := y; month := m + 1; date := diy - monthStart m leap + 1;
     hours := tod / 3600000; minutes := (tod / 60000) mod 60;
     seconds := (tod / 1000) mod 60; millis := tod mod 1000 |}.

(** [MakeDay] and [MakeDate], on fields in range. *)
Definition MakeDay (y m dt : Z) : Z :=
  DayFromYear y + monthStart (m - 1) (leapDays y) + dt - 1.

Definition MakeTime (h mi s ms : Z) : Z :=
  h * 3600000 + mi * 60000 + s * 1000 + ms.

Definition timeOfFields (f : fields) : Z :=
  MakeDay (year f) (month f) (date f) * msPerDay
  + MakeTime (hours f) (minutes f) (seconds f) (millis f).

Definition daysInMonth (y m : Z) : Z :=
  monthStart m (leapDays y) - monthStart (m - 1) (leapDays y).

(** Fields that denote a calendar date and a time of day. *)
Definition validFields (f : fields) : bool :=
  (1 <=? month f) && (month f <=? 12)
  && (1 <=? date f) && (date f <=? daysInMonth (year f) (month f))
  && (0 <=? hours f) && (hours f <=? 23)
  && (0 <=? minutes f) && (minutes f <=? 59)
  && (0 <=? seconds f) && (seconds f <=? 59)
  && (0 <=? millis f) && (millis f <=? 999).

(** *** Text *)

Definition digit (n : Z) : ascii := ascii_of_N (Z.to_N (48 + n)).

Definition digitValue (c : ascii) : option Z :=
  let n := Z.of_N (N_of_ascii c) in
  if (48 <=? n) && (n <=? 57) then Some (n - 48) else None.

Definition pad2 (n : Z) (k : string) : string :=
  String (digit (n / 10)) (String (digit (n mod 10)) k).
Definition pad3 (n : Z) (k : string) : string :=
  String (digit (n / 100)) (pad2 (n mod 100) k).
Definition pad4 (n : Z) (k : string) : string :=
  pad2 (n / 100) (pad2 (n mod 100) k).
Definition pad6 (n : Z) (k : string) : string :=
  pad2 (n / 10000) (pad4 (n mod 10000) k).

(** The year of [toISOString]: four digits from 0 to 9999, otherwise a sign
    and six digits. *)
Definition yearText (y : Z) (k : string) : string :=
  if (0 <=? y) && (y <=? 9999) then pad4 y k
  else if y <? 0 then String "-" (pad6 (- y) k)
  else String "+" (pad6 y k).

(** The text after the year: [-MM-DDTHH:mm:ss.sssZ]. *)
Definition restText (f : fields) : string :=
  String "-" (pad2 (month f)
  (String "-" (pad2 (date f)
  (String "T" (pad2 (hours f)
  (String ":" (pad2 (minutes f)
  (String ":" (pad2 (seconds f)
  (String "." (pad3 (millis f) "Z"))))))))))).

Definition formatFields (f : fields) : string :=
  yearText (year f) (restText f).

(** [Date.prototype.toISOString] on a valid time value (it throws a
    RangeError on NaN, which the caller models). *)
Definition toISOString (t : Z) : string := formatFields (fieldsOfTime t).

Definition num2 (a b : ascii) : option Z :=
  match digitValue a, digitValue b with
  | Some x, Some y => Some (10 * x + y)
  | _, _ => None
  end.

Definition num3 (a b c : ascii) : option Z :=
  match digitValue a, num2 b c with
  | Some x, Some y => Some (100 * x + y)
  | _, _ => None
  end.

Definition num4 (a b c d : ascii) : option Z :=
  match num2 a b, num2 c d with
  | Some x, Some y => Some (100 * x + y)
  | _, _ => None
  end.

Definition num6 (a b c d e f : ascii) : option Z :=
  match num2 a b, num4 c d e f with
  | Some x, Some y => Some (10000 * x + y)
  | _, _ => None
  end.

(** Reads [restText] back. *)
Definition parseRest (y : Z) (l : list ascii) : option fields :=
  match l with
  | [c1; m1; m2; c2; d1; d2; c3; h1; h2; c4; i1; i2; c5; s1; s2; c6;
     f1; f2; f3; c7] =>
      if (c1 =? "-")%char && (c2 =? "-")%char && (c3 =? "T")%char
         && (c4 =? ":")%char && (c5 =? ":")%char && (c6 =? ".")%char
         && (c7 =? "Z")%char
      then
        match num2 m1 m2, num2 d1 d2, num2 h1 h2, num2 i1 i2, num2 s1 s2,
              num3 f1 f2 f3 with
        | Some mo, Some dt, Some h, Some mi, Some s, Some ms =>
            Some (Fields y mo dt h mi s ms)
        | _, _, _, _, _, _ => None
        end
      else None
  | _ => None
  end.

(** The complete date-time form of the ECMAScript date-time string format,
    in UTC: [YYYY-MM-DDTHH:mm:ss.sssZ], or with an expanded year
    [+YYYYYY]/[-YYYYYY] ([-000000] is not a year). *)
Definition parseFields (l : list ascii) : option fields :=
  match l with
  | sg :: y1 :: y2 :: y3 :: y4 :: y5 :: y6 :: rest =>
      if (sg =? "+")%char then
        match num6 y1 y2 y3 y4 y5 y6 with
        | Some y => parseRest y rest
        | None => None
        end
      else if (sg =? "-")%char then
        match num6 y1 y2 y3 y4 y5 y6 with
        | Some y => if y =? 0 then None else parseRest (- y) rest
        | None => None
        end
      else
        match num4 sg y1 y2 y3 with
        | Some y => parseRest y (y4 :: y5 :: y6 :: rest)
        | None => None
        end
  | _ => None
  end.

(** [parseISO s] is [Some tv] when [s] is a complete UTC date-time of the
    format naming a calendar date and a time of day before 24:00: [tv] is
    then what every conforming [Date.parse] returns.  On any other text it
    is [None], and [Date.parse] is left to the engine. *)
Definition parseISO (s : string) : option (option Z) :=
  match parseFields (list_ascii_of_string s) with
  | Some f => if validFields f then Some (TimeClip (timeOfFields f)) else None
  | None => None
  end.

End JsDate.

(** ** Regular expressions *)

Module JsRegExp.

(** The constructs [isoDateRE] is written with.  [Plus p] is [c+] for a
    character class [c]. *)
Inductive regex : Type :=
| Chr (c : ascii)
| Cls (p : ascii -> bool)
| Plus (p : ascii -> bool)
| Seq (r1 r2 : regex)
| Alt (r1 r2 : regex).

(** [plus p l k]: one or more characters of [p], then [k] on the rest. *)
Fixpoint plus (p : ascii -> bool) (l : list ascii) (k : list ascii -> bool) : bool :=
  match l with
  | [] => false
  | c :: l' => p c && (k l' || plus p l' k)
  end.

(** [matchAt r l k]: some prefix of [l] matches [r] and the rest
    satisfies the continuation [k]. *)
Fixpoint matchAt (r : regex) (l : list ascii) (k : list ascii -> bool) : bool :=
  match r with
  | Chr c => match l with x :: l' => (x =? c)%char && k l' | [] => false end
  | Cls p => match l with x :: l' => p x && k l' | [] => false end
  | Plus p => plus p l k
  | Seq r1 r2 => matchAt r1 l (fun l' => matchAt r2 l' k)
  | Alt r1 r2 => matchAt r1 l k || matchAt r2 l k
  end.

(** An unanchored pattern matches anywhere in the text. *)
Fixpoint search (r : regex) (l : list ascii) : bool :=
  matchAt r l (fun _ => true)
  || match l with [] => false | _ :: l' => search r l' end.

(** [RegExp.prototype.test] *)
Definition test (r : regex) (s : string) : bool :=
  search r (list_ascii_of_string s).

(** [[a-b]] *)
Definition range (a b : ascii) : ascii -> bool :=
  fun c => (N_of_ascii a <=? N_of_ascii c)%N && (N_of_ascii c <=? N_of_ascii b)%N.

(** [\d] *)
Definition d : regex := Cls (range "0" "9").

Fixpoint seq (rs : list regex) (last : regex) : regex :=
  match rs with
  | [] => last
  | r :: rs' => Seq r (seq rs' last)
  end.

(** [([+-][0-2]\d:[0-5]\d|Z)] *)
Definition zone : regex :=
  Alt (seq [Alt (Chr "+") (Chr "-"); Cls (range "0" "2"); d; Chr ":";
            Cls (range "0" "5")] d)
      (Chr "Z").

(** [\d{4}-[01]\d-[0-3]\dT[0-2]\d:[0-5]\d], followed by [r] *)
Definition dateHourMinute (r : regex) : regex :=
  seq [d; d; d; d; Chr "-"; Cls (range "0" "1"); d; Chr "-";
       Cls (range "0" "3"); d; Chr "T"; Cls (range "0" "2"); d; Chr ":";
       Cls (range "0" "5"); d] r.

(** [:[0-5]\d], followed by [r] *)
Definition secondsPart (r : regex) : regex :=
  seq [Chr ":"; Cls (range "0" "5"); d] r.

(** The three alternatives of [isoDateRE]: with a fraction of a second,
    with seconds, with minutes only; each ends in a zone. *)
Definition isoDateRE : regex :=
  Alt (dateHourMinute (secondsPart (seq [Chr "."; Plus (range "0" "9")] zone)))
      (Alt (dateHourMinute (secondsPart zone))
           (dateHourMinute zone)).

End JsRegExp.

(** ** JavaScript values *)

Module Js.
Import JsDate.

(** The values an entity record holds here: strings, [Date] objects (a time
    value, [None] for an invalid date), [null] and [undefined]. *)
Inductive value : Type :=
| VUndefined
| VNull
| VString (s : string)
| VDate (tv : option Z).

Global Instance value_eq_dec : EqDecision value.
Proof. solve_decision. Defined.

(** An object is a finite map from property names to values; a missing
    property reads as [undefined]. *)
Abbreviation object := (gmap string value).

Definition prop (o : object) (k : string) : value :=
  default VUndefined (o !! k).

(** [{...a, ...b}]: the properties of [b] win. *)
Definition spread (a b : object) : object := b ∪ a.

Definition truthy (v : value) : bool :=
  match v with
  | VUndefined | VNull => false
  | VString s => negb (String.eqb s "")
  | VDate _ => true
  end.

(** [a === b] where [b] was just built by the codec: two strings are equal
    when their text is, a [Date] object is equal to no other value. *)
Definition strictEq (a b : value) : bool :=
  match a, b with
  | VUndefined, VUndefined => true
  | VNull, VNull => true
  | VString x, VString y => String.eqb x y
  | _, _ => false
  end.

(** What the engine decides on its own: [Date.parse] on text outside the
    form [parseISO] reads (NaN is [None]), and [Date.prototype.toString],
    which depends on the local time zone. *)
Record Engine : Type := {
  legacyDateParse : string -> option Z;
  dateToString : option Z -> string
}.

Definition Date_parse (E : Engine) (s : string) : option Z :=
  match parseISO s with
  | Some tv => tv
  | None => legacyDateParse E s ≫= TimeClip
  end.

(** The string a value becomes in a concatenation or a template literal. *)
Definition ToString (E : Engine) (v : value) : string :=
  match v with
  | VUndefined => "undefined"
  | VNull => "null"
  | VString s => s
  | VDate tv => dateToString E tv
  end.

(** What a call leaves: a returned value or a thrown exception. *)
Inductive exn : Type :=
| RangeError_invalid_time
| ReplyError_wrong_arity
| ReplyError_WRONGTYPE.

Inductive outcome (A : Type) : Type :=
| Returned (a : A)
| Thrown (e : exn).
Global Arguments Returned {A} a.
Global Arguments Thrown {A} e.

End Js.

(** ** The Redis client *)

Module Redis.
Import Js.

(** A key holds a string or a hash of fields. *)
Inductive entry : Type :=
| EString (v : string)
| EHash (h : gmap string string).

Abbreviation store := (gmap string entry).

(** An awaited call: it runs on the store and returns or throws. *)
Definition M (A : Type) : Type := store -> store * outcome A.

Global Instance M_ret : MRet M := fun A a s => (s, Returned a).
Global Instance M_bind : MBind M := fun A B f m s =>
  match m s with
  | (s', Returned a) => f a s'
  | (s', Thrown e) => (s', Thrown e)
  end.

Definition throw {A} (e : exn) : M A := fun s => (s, Thrown e).

(** How ioredis writes a command argument: [null] and [undefined] become
    the empty string, anything else its string. *)
Definition toArg (E : Engine) (v : value) : string :=
  match v with
  | VUndefined | VNull => ""
  | v => ToString E v
  end.

(** [SET key value] *)
Definition set (key value : string) : M unit :=
  fun s => (<[key := EString value]> s, Returned tt).

(** [GET key]: the string, [null] for a missing key, an error on a hash. *)
Definition get (key : string) : M (option string) :=
  fun s =>
    match s !! key with
    | None => (s, Returned None)
    | Some (EString v) => (s, Returned (Some v))
    | Some (EHash _) => (s, Thrown ReplyError_WRONGTYPE)
    end.

Definition delKeys (keys : list string) (s : store) : store :=
  foldl (fun acc k => delete k acc) s keys.

(** [DEL key ...]: replies the number of keys removed. *)
Definition del (keys : list string) : M nat :=
  fun s =>
    match keys with
    | [] => (s, Thrown ReplyError_wrong_arity)
    | _ => let s' := delKeys keys s in (s', Returned (size s - size s'))
    end.

(** [HSET key field value ...] with the fields of a JavaScript object:
    sets them in the hash and keeps its other fields. *)
Definition hset (E : Engine) (key : string) (o : object) : M unit :=
  fun s =>
    if decide (o = ∅) then (s, Thrown ReplyError_wrong_arity)
    else
      match s !! key with
      | None => (<[key := EHash (toArg E <$> o)]> s, Returned tt)
      | Some (EHash h) =>
          (<[key := EHash ((toArg E <$> o) ∪ h)]> s, Returned tt)
      | Some (EString _) => (s, Thrown ReplyError_WRONGTYPE)
      end.

(** [HGETALL key]: the fields, none for a missing key.  The client makes
    every field a property of the object it returns, whatever its name. *)
Definition hgetall (key : string) : M (gmap string string) :=
  fun s =>
    match s !! key with
    | None => (s, Returned ∅)
    | Some (EHash h) => (s, Returned h)
    | Some (EString _) => (s, Thrown ReplyError_WRONGTYPE)
    end.

(** [HDEL key field ...]: removes fields of a hash, and the key with its
    last field.  Without a field the server refuses the command. *)
Definition hdel (key : string) (fields : list string) : M nat :=
  fun s =>
    match fields with
    | [] => (s, Thrown ReplyError_wrong_arity)
    | _ =>
        match s !! key with
        | None => (s, Returned 0)
        | Some (EHash h) =>
            let h' := foldl (fun acc f => delete f acc) h fields in
            ((if decide (h' = ∅) then delete key s else <[key := EHash h']> s),
             Returned (size h - size h'))
        | Some (EString _) => (s, Thrown ReplyError_WRONGTYPE)
        end
    end.

End Redis.

(** ** The adapter *)

Module Adapter.
Import JsDate JsRegExp Js Redis.

(** A key of the options object ([prefix?: string]): it is not there, it
    is there and holds [undefined], or it holds a string. *)
Inductive setting : Type :=
| Absent
| Undefined
| Prefix (s : string).

Record IORedisAdapterOptions : Type := {
  baseKeyPrefix : setting;
  userKeyPrefix : setting;
  accountKeyPrefix : setting;
  accountByUserIdPrefix : setting;
  sessionKeyPrefix : setting;
  sessionByUserIdPrefix : setting;
  userByEmailKeyPrefix : setting;
  verificationKeyPrefix : setting
}.

Definition defaultOptions : IORedisAdapterOptions := {|
  baseKeyPrefix := Prefix "";
  userKeyPrefix := Prefix "user:";
  accountKeyPrefix := Prefix "account:";
  accountByUserIdPrefix := Prefix "account:user:";
  sessionKeyPrefix := Prefix "session:";
  sessionByUserIdPrefix := Prefix "session:user:";
  userByEmailKeyPrefix := Prefix "user:email:";
  verificationKeyPrefix := Prefix "verification:"
|}.

(** [isEmpty]: the object has no property. *)
Definition isEmpty {A} (obj : gmap string A) : bool := bool_decide (obj = ∅).

(** [isDate]: a non-empty string in which [isoDateRE] matches and that
    [Date.parse] reads. *)
Definition isDate (E : Engine) (value : string) : bool :=
  negb (String.eqb value "") && test isoDateRE value
  && bool_decide (is_Some (Date_parse E value)).

(** [acc[key] = v] on an object that began as [{}].  The key [__proto__]
    names the accessor of [Object.prototype]: its setter creates no
    property (it changes the prototype when [v] is an object or [null] and
    does nothing for another value).  Every other key becomes a property
    of [acc]. *)
Definition assign (acc : object) (key : string) (v : value) : object :=
  if decide (key = "__proto__") then acc else <[key := v]> acc.

(** [Object.entries(o).reduce((acc, [key, val]) => { acc[key] = f(val);
    return acc }, {})], where [f] may throw; [f(val)] is evaluated before
    the assignment. *)
Definition reduceEntries {A} (f : A -> outcome value) (o : gmap string A)
  : outcome object :=
  map_fold (fun key val acc =>
              match acc, f val with
              | Returned acc, Returned v => Returned (assign acc key v)
              | Thrown e, _ => Thrown e
              | _, Thrown e => Thrown e
              end) (Returned ∅) o.

(** [val instanceof Date ? val.toISOString() : val]; [toISOString] throws
    a RangeError on an invalid date. *)
Definition encodeValue (val : value) : outcome value :=
  match val with
  | VDate (Some t) => Returned (VString (toISOString t))
  | VDate None => Thrown RangeError_invalid_time
  | _ => Returned val
  end.

(** [isDate(val) ? new Date(val) : val] *)
Definition decodeValue (E : Engine) (val : string) : value :=
  if isDate E val then VDate (Date_parse E val) else VString val.

Section Keys.
Context (options : IORedisAdapterOptions).

(** [{...defaultOptions, ...options}], one option at a time: a key of
    [options] that is there wins, also when it holds [undefined]. *)
Definition currentOption (opt : IORedisAdapterOptions -> setting) : setting :=
  match opt options with
  | Absent => opt defaultOptions
  | given => given
  end.

(** [currentOptions.baseKeyPrefix || ""] *)
Definition basePrefix : string :=
  match currentOption baseKeyPrefix with
  | Prefix s => s
  | _ => ""
  end.

(** [baseKeyPrefix + currentOptions.<opt>]; an option that holds
    [undefined] concatenates as ["undefined"]. *)
Definition prefixOf (opt : IORedisAdapterOptions -> setting) : string :=
  basePrefix +:+ match currentOption opt with
                 | Prefix s => s
                 | _ => "undefined"
                 end.

Definition getUserByEmailKey (email : string) : string :=
  prefixOf userByEmailKeyPrefix +:+ email.
Definition getUserKey (userId : string) : string :=
  prefixOf userKeyPrefix +:+ userId.

Definition getAccountKey (accountId : string) : string :=
  prefixOf accountKeyPrefix +:+ accountId.
Definition getAccountByUserIdKey (userId : string) : string :=
  prefixOf accountByUserIdPrefix +:+ userId.
Definition getAccountId (providerAccountId provider : string) : string :=
  provider +:+ ":" +:+ providerAccountId.

Definition getSessionKey (sessionId : string) : string :=
  prefixOf sessionKeyPrefix +:+ sessionId.
Definition getSessionByUserIdKey (userId : string) : string :=
  prefixOf sessionByUserIdPrefix +:+ userId.

Definition getVerificationKey (tokenId : string) : string :=
  prefixOf verificationKeyPrefix +:+ tokenId.

End Keys.

Section IORedisAdapter.
Context (E : Engine) (options : IORedisAdapterOptions).

Local Abbreviation getUserByEmailKey := (getUserByEmailKey options).
Local Abbreviation getUserKey := (getUserKey options).
Local Abbreviation getAccountKey := (getAccountKey options).
Local Abbreviation getAccountByUserIdKey := (getAccountByUserIdKey options).
Local Abbreviation getSessionKey := (getSessionKey options).
Local Abbreviation getSessionByUserIdKey := (getSessionByUserIdKey options).
Local Abbreviation getVerificationKey := (getVerificationKey options).

Definition setObjectAsHash (key : string) (object : object) : M unit :=
  match reduceEntries encodeValue object with
  | Returned newObject => hset E key newObject
  | Thrown e => throw e
  end.

Definition loadObjectFromHash (key : string) : M (option object) :=
  object ← hgetall key;
  if isEmpty object then mret None
  else
    match reduceEntries (fun val => Returned (decodeValue E val)) object with
    | Returned newObject => mret (Some newObject)
    | Thrown e => throw e
    end.

(** [id] is typed as a string; [updateUser] passes it as it stands in the
    update, so it is a value here: the key is made by concatenation, the
    argument of [SET] is what the client sends for it. *)
Definition setUser (id : value) (user : object) : M object :=
  setObjectAsHash (getUserKey (ToString E id)) user;;
  (if truthy (Js.prop user "email")
   then set (getUserByEmailKey (ToString E (Js.prop user "email"))) (toArg E id)
   else mret tt);;
  mret user.

Definition getUser (id : string) : M (option object) :=
  user ← loadObjectFromHash (getUserKey id);
  match user with
  | None => mret None
  | Some user => mret (Some user)
  end.

Definition setAccount (id : string) (account : object) : M object :=
  let accountKey := getAccountKey id in
  setObjectAsHash accountKey account;;
  set (getAccountByUserIdKey (ToString E (Js.prop account "userId"))) accountKey;;
  mret account.

Definition getAccount (id : string) : M (option object) :=
  account ← loadObjectFromHash (getAccountKey id);
  match account with
  | None => mret None
  | Some account => mret (Some account)
  end.

(** The delete functions return [null] when there is nothing to delete and
    [undefined] at their end. *)
Definition deleteAccount (id : string) : M value :=
  let key := getAccountKey id in
  account ← loadObjectFromHash key;
  match account with
  | None => mret VNull
  | Some account =>
      hdel key [];;
      del [getAccountByUserIdKey (ToString E (Js.prop account "userId"))];;
      mret VUndefined
  end.

Definition setSession (id : string) (session : object) : M object :=
  let sessionKey := getSessionKey id in
  setObjectAsHash sessionKey session;;
  set (getSessionByUserIdKey (ToString E (Js.prop session "userId"))) sessionKey;;
  mret session.

Definition getSession (id : string) : M (option object) :=
  session ← loadObjectFromHash (getSessionKey id);
  match session with
  | None => mret None
  | Some session =>
      mret (Some (spread {[ "id" := Js.prop session "id" ]} session))
  end.

Definition deleteSession (sessionToken : string) : M value :=
  session ← getSession sessionToken;
  match session with
  | None => mret VNull
  | Some session =>
      let key := getSessionKey sessionToken in
      del [key];;
      del [getSessionByUserIdKey (ToString E (Js.prop session "userId"))];;
      mret VUndefined
  end.

Definition setVerificationToken (id : string) (token : object) : M object :=
  let tokenKey := getVerificationKey id in
  setObjectAsHash tokenKey token;;
  mret token.

Definition getVerificationToken (id : string) : M (option object) :=
  let tokenKey := getVerificationKey id in
  token ← loadObjectFromHash tokenKey;
  match token with
  | None => mret None
  | Some token =>
      mret (Some (spread {[ "identifier" := Js.prop token "identifier" ]} token))
  end.

Definition deleteVerificationToken (id : string) : M unit :=
  let tokenKey := getVerificationKey id in
  del [tokenKey];;
  mret tt.

(** The methods of the adapter.  [createUser] takes the string [uuid()]
    returned as its first argument. *)
Definition createUser (uuid : string) (user : object) : M object :=
  let id := uuid in
  setUser (VString id) (spread user {[ "id" := VString id ]}).

Definition getUserByEmail (email : string) : M (option object) :=
  userId ← Redis.get (getUserByEmailKey email);
  match userId with
  | None | Some "" => mret None
  | Some userId => getUser userId
  end.

Definition getUserByAccount (providerAccountId provider : string)
  : M (option object) :=
  account ← getAccount (getAccountId providerAccountId provider);
  match account with
  | None => mret None
  | Some account => getUser (ToString E (Js.prop account "userId"))
  end.

Definition updateUser (updates : object) : M object :=
  let userId := Js.prop updates "id" in
  user ← getUser (ToString E userId);
  setUser userId (spread (default ∅ user) updates).

Definition deleteUser (userId : string) : M value :=
  user ← getUser userId;
  match user with
  | None => mret VNull
  | Some user =>
      accountKey ← Redis.get (getAccountByUserIdKey userId);
      sessionKey ← Redis.get (getSessionByUserIdKey userId);
      del [getUserByEmailKey (ToString E (Js.prop user "email"));
           getAccountByUserIdKey userId;
           getSessionByUserIdKey userId];;
      match sessionKey with
      | None | Some "" => mret 0
      | Some sessionKey => del [sessionKey]
      end;;
      match accountKey with
      | None | Some "" => mret 0
      | Some accountKey => del [accountKey]
      end;;
      del [getUserKey userId];;
      mret VUndefined
  end.

Definition linkAccount (account : object) : M object :=
  let id := getAccountId (ToString E (Js.prop account "providerAccountId"))
                         (ToString E (Js.prop account "provider")) in
  setAccount id (spread account {[ "id" := VString id ]}).

Definition unlinkAccount (providerAccountId provider : string) : M unit :=
  let id := getAccountId providerAccountId provider in
  deleteAccount id;;
  mret tt.

Definition createSession (session : object) : M object :=
  let id := Js.prop session "sessionToken" in
  setSession (ToString E id) (spread session {[ "id" := id ]}).

Definition getSessionAndUser (sessionToken : string)
  : M (option (object * object)) :=
  let id := sessionToken in
  session ← getSession id;
  match session with
  | None => mret None
  | Some session =>
      user ← getUser (ToString E (Js.prop session "userId"));
      match user with
      | None => mret None
      | Some user => mret (Some (session, user))
      end
  end.

Definition updateSession (updates : object) : M (option object) :=
  let id := ToString E (Js.prop updates "sessionToken") in
  session ← getSession id;
  match session with
  | None => mret None
  | Some session =>
      session ← setSession id (spread session updates);
      mret (Some session)
  end.

Definition createVerificationToken (verificationToken : object) : M object :=
  let id := ToString E (Js.prop verificationToken "identifier") in
  setVerificationToken id verificationToken;;
  mret verificationToken.

Definition useVerificationToken (verificationToken : object)
  : M (option object) :=
  let id := ToString E (Js.prop verificationToken "identifier") in
  token ← getVerificationToken id;
  match token with
  | None => mret None
  | Some token =>
      if negb (strictEq (Js.prop verificationToken "token") (Js.prop token "token"))
      then mret None
      else deleteVerificationToken id;; mret (Some token)
  end.

End IORedisAdapter.

(** *** Notions used in the statements *)

(** A [Date] object that holds an instant: [toISOString] throws on the
    others. *)
Definition validDate (v : value) : bool :=
  match v with
  | VDate (Some t) => (Z.abs t <=? maxTime)%Z
  | VDate None => false
  | _ => true
  end.

Definition validDates (o : object) : bool :=
  forallb (fun kv => validDate kv.2) (map_to_list o).

(** What [encodeValue] returns when it returns. *)
Definition isoValue (val : value) : value :=
  match val with
  | VDate (Some t) => VString (toISOString t)
  | _ => val
  end.

(** The field text [setObjectAsHash] sends for a value. *)
Definition fieldText (E : Engine) (v : value) : string :=
  match v with
  | VDate (Some t) => toISOString t
  | v => toArg E v
  end.

(** The fields a key holds when it holds a hash. *)
Definition hashAt (s : store) (key : string) : gmap string string :=
  match s !! key with
  | Some (EHash h) => h
  | _ => ∅
  end.

(** The key does not hold a plain string, so hash commands are accepted. *)
Definition notString (s : store) (key : string) : bool :=
  match s !! key with
  | Some (EString _) => false
  | _ => true
  end.

(** The properties the two [reduce] calls copy: all but [__proto__]. *)
Definition ownFields {A} (o : gmap string A) : gmap string A :=
  delete "__proto__" o.

(** The store after [setObjectAsHash key object]: the fields of [object]
    are set in the hash at [key], its other fields stay. *)
Definition hashWritten (E : Engine) (key : string) (object : object)
    (s : store) : store :=
  <[key := EHash ((fieldText E <$> ownFields object) ∪ hashAt s key)]> s.

(** The store after [setUser id user]: the hash, then the email pointer
    when the record has an email. *)
Definition userWritten (E : Engine) (options : IORedisAdapterOptions)
    (id : string) (user : object) (s : store) : store :=
  let s1 := hashWritten E (getUserKey options id) user s in
  if truthy (Js.prop user "email")
  then <[getUserByEmailKey options (ToString E (Js.prop user "email"))
         := EString id]> s1
  else s1.

(** The store after [setSession id session]: the hash, then the
    session-by-user pointer. *)
Definition sessionWritten (E : Engine) (options : IORedisAdapterOptions)
    (id : string) (session : object) (s : store) : store :=
  <[getSessionByUserIdKey options (ToString E (Js.prop session "userId"))
    := EString (getSessionKey options id)]>
    (hashWritten E (getSessionKey options id) session s).

(** The store after [setAccount id account]. *)
Definition accountWritten (E : Engine) (options : IORedisAdapterOptions)
    (id : string) (account : object) (s : store) : store :=
  <[getAccountByUserIdKey options (ToString E (Js.prop account "userId"))
    := EString (getAccountKey options id)]>
    (hashWritten E (getAccountKey options id) account s).

(** [if (key) await client.del(key)] on a key read with [GET]. *)
Definition delPointed (key : option string) (s : store) : store :=
  match key with
  | Some (String c k) => delete (String c k) s
  | _ => s
  end.

(** The default prefixes under a base prefix. *)
Definition withBase (base : string) : IORedisAdapterOptions := {|
  baseKeyPrefix := Prefix base;
  userKeyPrefix := Absent;
  accountKeyPrefix := Absent;
  accountByUserIdPrefix := Absent;
  sessionKeyPrefix := Absent;
  sessionByUserIdPrefix := Absent;
  userByEmailKeyPrefix := Absent;
  verificationKeyPrefix := Absent
|}.

(** The keys of users, of accounts and of sessions never coincide: the
    prefixes of the three kinds keep them apart. *)
Definition separated (options : IORedisAdapterOptions) : Prop :=
  forall x y : string,
    getUserKey options x <> getAccountKey options y
    /\ getUserKey options x <> getAccountByUserIdKey options y
    /\ getUserKey options x <> getSessionKey options y
    /\ getUserKey options x <> getSessionByUserIdKey options y
    /\ getAccountKey options x <> getSessionKey options y
    /\ getAccountKey options x <> getSessionByUserIdKey options y
    /\ getAccountByUserIdKey options x <> getSessionKey options y
    /\ getAccountByUserIdKey options x <> getSessionByUserIdKey options y.

(** The text [uuid()] returns: 36 characters, lower-case hexadecimal
    digits in groups of 8, 4, 4, 4 and 12 joined by hyphens. *)
Definition isHex (c : ascii) : bool :=
  range "0" "9" c || range "a" "f" c.

Fixpoint uuidGroup (n : nat) (l : list ascii) : option (list ascii) :=
  match n, l with
  | O, _ => Some l
  | S n', c :: l' => if isHex c then uuidGroup n' l' else None
  | S _, [] => None
  end.

Definition hyphen (l : option (list ascii)) : option (list ascii) :=
  match l with
  | Some (c :: l') => if (c =? "-")%char then Some l' else None
  | _ => None
  end.

Definition isUuid (s : string) : bool :=
  match
    hyphen (uuidGroup 8 (list_ascii_of_string s)) ≫= fun l =>
    hyphen (uuidGroup 4 l) ≫= fun l =>
    hyphen (uuidGroup 4 l) ≫= fun l =>
    hyphen (uuidGroup 4 l) ≫= fun l =>
    uuidGroup 12 l
  with
  | Some [] => true
  | _ => false
  end.

(** An engine for the examples: in the UTC time zone, and with a
    [Date.parse] that reads nothing outside the standard format. *)
Definition dayName (d : Z) : string :=
  match (d mod 7)%Z with
  | 0 => "Thu" | 1 => "Fri" | 2 => "Sat" | 3 => "Sun"
  | 4 => "Mon" | 5 => "Tue" | _ => "Wed"
  end%Z.

Definition monthName (m : Z) : string :=
  match m with
  | 1 => "Jan" | 2 => "Feb" | 3 => "Mar" | 4 => "Apr" | 5 => "May"
  | 6 => "Jun" | 7 => "Jul" | 8 => "Aug" | 9 => "Sep" | 10 => "Oct"
  | 11 => "Nov" | _ => "Dec"
  end%Z.

Definition utcDateToString (tv : option Z) : string :=
  match tv with
  | None => "Invalid Date"
  | Some t =>
      let f := fieldsOfTime t in
      dayName (Day t) +:+ " " +:+ monthName (month f) +:+ " "
      +:+ pad2 (date f) (" " +:+ yearText (year f) (" "
      +:+ pad2 (hours f) (":" +:+ pad2 (minutes f) (":"
      +:+ pad2 (seconds f) " GMT+0000 (Coordinated Universal Time)"))))
  end.

Definition utcEngine : Engine := {|
  legacyDateParse := fun _ => None;
  dateToString := utcDateToString
|}.

(** *** Notions used in the further properties *)

(** The text holds the letter [T], which every match of [isoDateRE]
    needs between the date and the time. *)
Definition isT (c : ascii) : bool := (c =? "T")%char.

Definition containsT (s : string) : bool :=
  existsb isT (list_ascii_of_string s).

(** The text holds a colon. *)
Definition containsColon (s : string) : bool :=
  existsb (fun c => (c =? ":")%char) (list_ascii_of_string s).

(** *** Example data *)

Definition exampleId : string := "9b2e7c1a-5d3f-4a8b-9c6d-0e1f2a3b4c5d".

Definition exampleUser : object :=
  {[ "name" := VString "A"; "email" := VString "a@x.com" ]}.

Definition exampleAccount : object :=
  {[ "provider" := VString "github"; "providerAccountId" := VString "42";
     "userId" := VString exampleId ]}.

Definition exampleSession : object :=
  {[ "sessionToken" := VString "tok"; "userId" := VString exampleId;
     "expires" := VDate (Some 1700000000123%Z) ]}.

Definition exampleToken : object :=
  {[ "identifier" := VString "a@x.com"; "token" := VString "secret";
     "expires" := VDate (Some 1700000000123%Z) ]}.

(** A user created, an account linked to it, a session created for it and
    a verification token created, from the empty store. *)
Definition exampleStore (E : Engine) : store :=
  let s1 := (createUser E defaultOptions exampleId exampleUser ∅).1 in
  let s2 := (linkAccount E defaultOptions exampleAccount s1).1 in
  let s3 := (createSession E defaultOptions exampleSession s2).1 in
  (createVerificationToken E defaultOptions exampleToken s3).1.

End Adapter.

(** * Facts about the built-ins *)

Ltac zlia := Z.div_mod_to_equations; lia.

Module JsDateFacts.
Import JsDate.
Local Open Scope Z_scope.

(** ** The calendar *)

Lemma YearFromDay_spec d :
  DayFromYear (YearFromDay d) <= d < DayFromYear (YearFromDay d + 1).
Proof.
  unfold YearFromDay, DayFromYear.
  set (y := 1970 + 400 * d / 146097).
  assert (Hy: 146097 * (y - 1970) <= 400 * d < 146097 * (y - 1970) + 146097).
  { subst y. zlia. }
  clearbody y.
  destruct (Z.ltb_spec d (365 * (y - 1970) + (y - 1969) / 4 -
     (y - 1901) / 100 + (y - 1601) / 400)).
  - zlia.
  - match goal with |- context [if ?b then _ else _] => destruct b eqn:E end.
    + apply Z.leb_le in E. zlia.
    + apply Z.leb_gt in E. zlia.
Qed.

Lemma DayFromYear_succ y : DayFromYear (y + 1) = DayFromYear y + 365 + leapDays y.
Proof.
  unfold DayFromYear, leapDays, InLeapYear.
  destruct (Z.eqb_spec (y mod 4) 0); destruct (Z.eqb_spec (y mod 100) 0);
    destruct (Z.eqb_spec (y mod 400) 0); cbn [andb orb negb]; zlia.
Qed.

Lemma leapDays_range y : 0 <= leapDays y <= 1.
Proof. unfold leapDays. destruct (InLeapYear y); lia. Qed.

Lemma month_date_range diy leap :
  0 <= leap <= 1 -> 0 <= diy < 365 + leap ->
  let m := MonthFromDay diy leap in
  0 <= m <= 11 /\ monthStart m leap <= diy < monthStart (m + 1) leap.
Proof.
  intros Hl Hd. unfold MonthFromDay.
  repeat match goal with
  | |- context [if ?a <? ?b then _ else _] => destruct (Z.ltb_spec a b)
  end; cbv zeta;
  match goal with
  | |- context [monthStart (?a + 1)] =>
      let v := eval vm_compute in (a + 1) in change (a + 1) with v
  end; cbn [monthStart]; lia.
Qed.

Lemma fieldsOfTime_valid t : validFields (fieldsOfTime t) = true.
Proof.
  unfold validFields, fieldsOfTime, daysInMonth. cbn [year month date hours minutes seconds millis].
  pose proof (YearFromDay_spec (Day t)) as Hy.
  rewrite DayFromYear_succ in Hy.
  set (y := YearFromDay (Day t)) in *.
  pose proof (leapDays_range y) as Hl.
  set (diy := Day t - DayFromYear y) in *.
  destruct (month_date_range diy (leapDays y) Hl ltac:(lia)) as [Hm Hs].
  set (m := MonthFromDay diy (leapDays y)) in *.
  replace (m + 1 - 1) with m by lia.
  assert (Htod : 0 <= TimeWithinDay t < 86400000) by (unfold TimeWithinDay, msPerDay; zlia).
  set (tod := TimeWithinDay t) in *.
  repeat rewrite andb_true_iff. repeat rewrite Z.leb_le.
  repeat split; try lia; try zlia.
Qed.

Lemma timeOfFields_fieldsOfTime t : timeOfFields (fieldsOfTime t) = t.
Proof.
  unfold timeOfFields, fieldsOfTime, MakeDay, MakeTime.
  cbn [year month date hours minutes seconds millis].
  set (y := YearFromDay (Day t)).
  set (m := MonthFromDay _ _).
  replace (m + 1 - 1) with m by lia.
  unfold Day, TimeWithinDay, msPerDay. zlia.
Qed.

(** ** Digits *)

Lemma digit_cases n (P : Z -> Prop) :
  0 <= n <= 9 ->
  P 0 -> P 1 -> P 2 -> P 3 -> P 4 -> P 5 -> P 6 -> P 7 -> P 8 -> P 9 -> P n.
Proof.
  intros Hn. intros.
  replace n with (Z.of_nat (Z.to_nat n)) by lia.
  destruct (Z.to_nat n) as [|[|[|[|[|[|[|[|[|[|k]]]]]]]]]] eqn:Hk;
    try assumption.
  lia.
Qed.

Lemma digitValue_digit n : 0 <= n <= 9 -> digitValue (digit n) = Some n.
Proof. intros Hn. pattern n. apply digit_cases; trivial. Qed.

Lemma digit_not_sign n :
  0 <= n <= 9 -> (digit n =? "+")%char = false /\ (digit n =? "-")%char = false.
Proof. intros Hn. pattern n. apply digit_cases; auto. Qed.

Lemma num2_digits n :
  0 <= n <= 99 -> num2 (digit (n / 10)) (digit (n mod 10)) = Some n.
Proof.
  intros Hn. unfold num2.
  rewrite !digitValue_digit by zlia. f_equal. zlia.
Qed.

Lemma num3_digits n :
  0 <= n <= 999 ->
  num3 (digit (n / 100)) (digit (n mod 100 / 10)) (digit (n mod 100 mod 10)) = Some n.
Proof.
  intros Hn. unfold num3.
  rewrite digitValue_digit, num2_digits by zlia. f_equal. zlia.
Qed.

Lemma num4_digits n :
  0 <= n <= 9999 ->
  num4 (digit (n / 100 / 10)) (digit (n / 100 mod 10))
       (digit (n mod 100 / 10)) (digit (n mod 100 mod 10)) = Some n.
Proof.
  intros Hn. unfold num4.
  rewrite !num2_digits by zlia. f_equal. zlia.
Qed.

Lemma num6_digits n :
  0 <= n <= 999999 ->
  num6 (digit (n / 10000 / 10)) (digit (n / 10000 mod 10))
       (digit (n mod 10000 / 100 / 10)) (digit (n mod 10000 / 100 mod 10))
       (digit (n mod 10000 mod 100 / 10)) (digit (n mod 10000 mod 100 mod 10)) = Some n.
Proof.
  intros Hn. unfold num6.
  rewrite num2_digits, num4_digits by zlia. f_equal. zlia.
Qed.

Lemma validFields_ranges f :
  validFields f = true ->
  1 <= month f <= 12 /\ 1 <= date f <= 31 /\ 0 <= hours f <= 23
  /\ 0 <= minutes f <= 59 /\ 0 <= seconds f <= 59 /\ 0 <= millis f <= 999.
Proof.
  unfold validFields, daysInMonth. rewrite !andb_true_iff, !Z.leb_le.
  intros H. decompose [and] H; clear H.
  pose proof (leapDays_range (year f)).
  assert (monthStart (month f) (leapDays (year f))
          - monthStart (month f - 1) (leapDays (year f)) <= 31).
  { pose proof (leapDays_range (year f)).
    assert (Hc : month f = 1 \/ month f = 2 \/ month f = 3 \/ month f = 4
      \/ month f = 5 \/ month f = 6 \/ month f = 7 \/ month f = 8
      \/ month f = 9 \/ month f = 10 \/ month f = 11 \/ month f = 12) by lia.
    repeat destruct Hc as [-> | Hc]; try rewrite Hc;
      match goal with
      | |- context [monthStart (?a - 1)] =>
          let v := eval vm_compute in (a - 1) in change (a - 1) with v
      end; cbn [monthStart]; lia. }
  lia.
Qed.

(** ** Writing a time value and reading it back *)

Lemma parseRest_restText y f :
  validFields f = true ->
  parseRest y (list_ascii_of_string (restText f))
  = Some (Fields y (month f) (date f) (hours f) (minutes f) (seconds f) (millis f)).
Proof.
  intros Hv. apply validFields_ranges in Hv.
  unfold restText, pad3, pad2. cbn [list_ascii_of_string parseRest].
  cbn [Ascii.eqb Bool.eqb andb].
  rewrite !num2_digits, num3_digits by lia. reflexivity.
Qed.

Lemma parseFields_formatFields f :
  validFields f = true -> -999999 <= year f <= 999999 ->
  parseFields (list_ascii_of_string (formatFields f)) = Some f.
Proof.
  intros Hv Hy. unfold formatFields, yearText.
  pose proof (parseRest_restText (year f) f Hv) as HR.
  destruct (Z.leb_spec 0 (year f)); [destruct (Z.leb_spec (year f) 9999)|];
    cbn [andb].
  - unfold restText, pad4, pad3, pad2 in *. cbn [list_ascii_of_string] in *.
    cbn [parseFields].
    destruct (digit_not_sign (year f / 100 / 10) ltac:(zlia)) as [-> ->].
    rewrite num4_digits by lia. rewrite HR. destruct f; reflexivity.
  - destruct (Z.ltb_spec (year f) 0); [lia|].
    unfold pad6, pad4, pad2. cbn [list_ascii_of_string parseFields].
    cbn [Ascii.eqb Bool.eqb andb].
    rewrite num6_digits by lia. rewrite HR. destruct f; reflexivity.
  - destruct (Z.ltb_spec (year f) 0); [|lia].
    unfold pad6, pad4, pad2. cbn [list_ascii_of_string parseFields].
    cbn [Ascii.eqb Bool.eqb andb].
    rewrite num6_digits by lia.
    destruct (Z.eqb_spec (- year f) 0); [lia|].
    replace (- - year f) with (year f) by lia. rewrite HR. destruct f; reflexivity.
Qed.

Lemma year_bound t :
  Z.abs t <= maxTime -> -271821 <= year (fieldsOfTime t) <= 275760.
Proof.
  intros Ht. unfold fieldsOfTime. cbn [year].
  pose proof (YearFromDay_spec (Day t)) as Hy.
  set (y := YearFromDay (Day t)) in *. clearbody y.
  assert (-100000000 <= Day t <= 100000000) by (unfold Day, msPerDay, maxTime in *; zlia).
  unfold DayFromYear in Hy. zlia.
Qed.

(** [Date.parse] reads every text [toISOString] writes back to the same
    time value. *)
Lemma parseISO_toISOString t :
  Z.abs t <= maxTime -> parseISO (toISOString t) = Some (Some t).
Proof.
  intros Ht. unfold parseISO, toISOString.
  pose proof (year_bound t Ht).
  rewrite parseFields_formatFields by (auto using fieldsOfTime_valid; lia).
  rewrite fieldsOfTime_valid, timeOfFields_fieldsOfTime.
  unfold TimeClip. destruct (Z.leb_spec (Z.abs t) maxTime); [reflexivity|lia].
Qed.

End JsDateFacts.

Module JsRegExpFacts.
Import JsDate JsDateFacts JsRegExp.
Local Open Scope Z_scope.

Lemma N_of_ascii_digit n :
  0 <= n <= 9 -> N_of_ascii (digit n) = Z.to_N (48 + n).
Proof. intros Hn. pattern n. apply digit_cases; trivial. Qed.

Lemma range_digit n hi :
  0 <= n <= hi -> hi <= 9 -> range "0" (digit hi) (digit n) = true.
Proof.
  intros Hn Hhi. unfold range.
  rewrite !N_of_ascii_digit by lia.
  apply andb_true_intro; split; apply N.leb_le; cbn; lia.
Qed.

Lemma search_cons r c l : search r l = true -> search r (c :: l) = true.
Proof. intros H. cbn [search]. rewrite H. apply orb_true_r. Qed.

Ltac digit_class :=
  match goal with
  | |- range "0" ?hi (digit ?n) = true =>
      let k := eval vm_compute in (Z.of_N (N_of_ascii hi) - 48) in
      exact (range_digit n k ltac:(zlia) ltac:(lia))
  end.

Lemma matchAt_isoDateRE a b c e f :
  0 <= a <= 9 -> 0 <= b <= 9 -> 0 <= c <= 9 -> 0 <= e <= 9 ->
  validFields f = true ->
  matchAt isoDateRE
    (digit a :: digit b :: digit c :: digit e :: list_ascii_of_string (restText f))
    (fun _ => true) = true.
Proof.
  intros Ha Hb Hc He Hv. apply validFields_ranges in Hv.
  unfold isoDateRE. cbn [matchAt]. apply orb_true_iff. left.
  unfold restText, pad3, pad2, dateHourMinute, secondsPart, d.
  cbn [list_ascii_of_string seq matchAt plus].
  repeat first
    [ reflexivity
    | apply andb_true_intro; split; [ first [ reflexivity | digit_class ] | ]
    | apply orb_true_iff; right ].
Qed.

Lemma search_matchAt r l : matchAt r l (fun _ => true) = true -> search r l = true.
Proof. intros H. destruct l; cbn [search]; rewrite H; reflexivity. Qed.

Lemma test_isoDateRE_formatFields f :
  validFields f = true -> -999999 <= year f <= 999999 ->
  test isoDateRE (formatFields f) = true.
Proof.
  intros Hv Hy. unfold test, formatFields, yearText.
  destruct (Z.leb_spec 0 (year f)); [destruct (Z.leb_spec (year f) 9999)|];
    cbn [andb].
  - unfold pad4, pad2. cbn [list_ascii_of_string].
    apply search_matchAt, matchAt_isoDateRE; trivial; zlia.
  - destruct (Z.ltb_spec (year f) 0); [lia|].
    unfold pad6, pad4, pad2. cbn [list_ascii_of_string].
    do 3 apply search_cons.
    apply search_matchAt, matchAt_isoDateRE; trivial; zlia.
  - destruct (Z.ltb_spec (year f) 0); [|lia].
    unfold pad6, pad4, pad2. cbn [list_ascii_of_string].
    do 3 apply search_cons.
    apply search_matchAt, matchAt_isoDateRE; trivial; zlia.
Qed.

Lemma test_isoDateRE_toISOString t :
  Z.abs t <= maxTime -> test isoDateRE (toISOString t) = true.
Proof.
  intros Ht. pose proof (year_bound t Ht).
  apply test_isoDateRE_formatFields; [apply fieldsOfTime_valid | lia].
Qed.

Lemma toISOString_nonempty t : toISOString t <> ""%string.
Proof.
  unfold toISOString, formatFields, yearText, pad4, pad2.
  repeat match goal with |- context [if ?b then _ else _] => destruct b end;
    discriminate.
Qed.

End JsRegExpFacts.

(** * Facts about the adapter *)

Module AdapterFacts.
Import JsDate JsRegExp Js Redis Adapter JsDateFacts JsRegExpFacts.

(** ** The monad *)

Lemma bind_run {A B} (m : M A) (f : A -> M B) (s : store) :
  (m ≫= f) s
  = match m s with
    | (s', Returned a) => f a s'
    | (s', Thrown e) => (s', Thrown e)
    end.
Proof. reflexivity. Qed.

Lemma bind_returned {A B} (m : M A) (f : A -> M B) (s s' : store) (a : A) :
  m s = (s', Returned a) -> (m ≫= f) s = f a s'.
Proof. intros H. rewrite bind_run, H. reflexivity. Qed.

Lemma bind_thrown {A B} (m : M A) (f : A -> M B) (s s' : store) (e : exn) :
  m s = (s', Thrown e) -> (m ≫= f) s = (s', Thrown e).
Proof. intros H. rewrite bind_run, H. reflexivity. Qed.

Lemma ret_run {A} (a : A) (s : store) : mret (M := M) a s = (s, Returned a).
Proof. reflexivity. Qed.

(** ** The codec *)

Lemma ownFields_lookup_ne {A} (o : gmap string A) f :
  f <> "__proto__" -> ownFields o !! f = o !! f.
Proof. intros H. apply lookup_delete_ne. congruence. Qed.

Lemma ownFields_lookup_proto {A} (o : gmap string A) :
  ownFields o !! "__proto__" = None.
Proof. apply lookup_delete_eq. Qed.

Lemma ownFields_fmap {A B} (g : A -> B) (o : gmap string A) :
  ownFields (g <$> o) = g <$> ownFields o.
Proof. symmetry. apply fmap_delete. Qed.

Lemma ownFields_union {A} (a b : gmap string A) :
  ownFields (a ∪ b) = ownFields a ∪ ownFields b.
Proof. apply delete_union. Qed.

Lemma ownFields_idemp {A} (o : gmap string A) :
  ownFields (ownFields o) = ownFields o.
Proof. apply delete_delete_eq. Qed.

Lemma ownFields_non_empty {A} (o : gmap string A) k v :
  o !! k = Some v -> k <> "__proto__" -> ownFields o <> ∅.
Proof.
  intros Hk Hne He. rewrite <- (ownFields_lookup_ne o k Hne), He in Hk.
  rewrite lookup_empty in Hk. discriminate.
Qed.

Lemma ownFields_insert {A} (o : gmap string A) k v :
  k <> "__proto__" -> ownFields (<[k := v]> o) = <[k := v]> (ownFields o).
Proof. intros H. apply delete_insert_ne. congruence. Qed.

Lemma reduceEntries_returned {A} (f : A -> outcome value) (g : A -> value)
    (o : gmap string A) :
  (forall k v, o !! k = Some v -> f v = Returned (g v)) ->
  reduceEntries f o = Returned (g <$> ownFields o).
Proof.
  unfold reduceEntries.
  induction o as [|i x m Hi Hfirst IH] using map_first_key_ind; intros Hf.
  - rewrite map_fold_empty. unfold ownFields.
    rewrite delete_empty, fmap_empty. reflexivity.
  - rewrite map_fold_insert_first_key by assumption.
    rewrite IH.
    + rewrite (Hf i x) by apply lookup_insert_eq.
      unfold assign. destruct (decide (i = "__proto__")) as [->|Hne].
      * unfold ownFields. rewrite delete_insert_eq. reflexivity.
      * rewrite ownFields_insert by assumption.
        rewrite fmap_insert. reflexivity.
    + intros k v Hk. apply (Hf k).
      rewrite lookup_insert_ne; [assumption|]. intros ->. congruence.
Qed.

Lemma validDates_lookup (o : object) k v :
  validDates o = true -> o !! k = Some v -> validDate v = true.
Proof.
  unfold validDates. rewrite forallb_forall. intros H Hk.
  apply (H (k, v)). apply list_elem_of_In, elem_of_map_to_list. exact Hk.
Qed.


Lemma encodeValue_valid v :
  validDate v = true -> encodeValue v = Returned (isoValue v).
Proof. destruct v as [| | |[t|]]; cbn; intros; auto; discriminate. Qed.

Lemma toArg_isoValue E v :
  validDate v = true -> toArg E (isoValue v) = fieldText E v.
Proof. destruct v as [| | |[t|]]; cbn; intros; auto; discriminate. Qed.

Lemma encode_returned (o : object) :
  validDates o = true ->
  reduceEntries encodeValue o = Returned (isoValue <$> ownFields o).
Proof.
  intros Hv. apply reduceEntries_returned. intros k v Hk.
  apply encodeValue_valid. eapply validDates_lookup; eauto.
Qed.

Lemma fieldText_fmap E (o : object) :
  validDates o = true ->
  toArg E <$> (isoValue <$> ownFields o) = fieldText E <$> ownFields o.
Proof.
  intros Hv. rewrite <- map_fmap_compose. apply map_fmap_ext.
  intros k v Hk. cbn. apply toArg_isoValue.
  unfold ownFields in Hk. apply lookup_delete_Some in Hk as [_ Hk].
  eapply validDates_lookup; eauto.
Qed.

(** ** The two hash functions on a store *)

Lemma setObjectAsHash_returned E key (o : object) (s : store) :
  validDates o = true -> ownFields o <> ∅ -> notString s key = true ->
  setObjectAsHash E key o s = (hashWritten E key o s, Returned tt).
Proof.
  intros Hv Hne Hk. unfold setObjectAsHash. rewrite encode_returned by assumption.
  unfold hset, hashWritten, hashAt, notString in *.
  destruct (decide (isoValue <$> ownFields o = ∅)) as [He|_].
  { apply fmap_empty_inv in He. contradiction. }
  rewrite fieldText_fmap by assumption.
  destruct (s !! key) as [[v|h]|]; try discriminate; try reflexivity.
  rewrite (right_id_L ∅ (∪)). reflexivity.
Qed.

Lemma loadObjectFromHash_run E key (s : store) :
  loadObjectFromHash E key s
  = match s !! key with
    | Some (EString _) => (s, Thrown ReplyError_WRONGTYPE)
    | _ => (s, Returned (if decide (hashAt s key = ∅) then None
                         else Some (decodeValue E <$> ownFields (hashAt s key))))
    end.
Proof.
  unfold loadObjectFromHash, hashAt. rewrite bind_run. unfold hgetall.
  destruct (s !! key) as [[v|h]|]; try reflexivity.
  unfold isEmpty. rewrite (reduceEntries_returned _ (decodeValue E)) by auto.
  destruct (decide (h = ∅)) as [->|Hne].
  - rewrite bool_decide_eq_true_2 by reflexivity. reflexivity.
  - rewrite bool_decide_eq_false_2 by assumption. reflexivity.
Qed.

Lemma loadObjectFromHash_absent E key (s : store) :
  s !! key = None -> loadObjectFromHash E key s = (s, Returned None).
Proof.
  intros H. rewrite loadObjectFromHash_run. unfold hashAt. rewrite H.
  rewrite decide_True by reflexivity. reflexivity.
Qed.

Lemma loadObjectFromHash_hash E key (s : store) h :
  s !! key = Some (EHash h) -> h <> ∅ ->
  loadObjectFromHash E key s
  = (s, Returned (Some (decodeValue E <$> ownFields h))).
Proof.
  intros H Hne. rewrite loadObjectFromHash_run. unfold hashAt. rewrite H.
  rewrite decide_False by assumption. reflexivity.
Qed.

Lemma loadObjectFromHash_found E key (s s' : store) (o : object) :
  loadObjectFromHash E key s = (s', Returned (Some o)) ->
  s' = s /\ hashAt s key <> ∅ /\ s !! key = Some (EHash (hashAt s key))
  /\ o = decodeValue E <$> ownFields (hashAt s key).
Proof.
  rewrite loadObjectFromHash_run. unfold hashAt.
  destruct (s !! key) as [[v|h]|]; try discriminate.
  destruct (decide (h = ∅)); [discriminate|]. intros [= <- <-]. auto.
Qed.

Lemma loadObjectFromHash_not_found E key (s s' : store) :
  loadObjectFromHash E key s = (s', Returned None) ->
  s' = s /\ hashAt s key = ∅ /\ notString s key = true.
Proof.
  rewrite loadObjectFromHash_run. unfold hashAt, notString.
  destruct (s !! key) as [[v|h]|]; try discriminate.
  - destruct (decide (h = ∅)); [|discriminate]. intros [= <-]. auto.
  - intros [= <-]. auto.
Qed.

(** ** Values through the codec *)

Lemma TimeClip_Some x t : TimeClip x = Some t -> t = x /\ (Z.abs t <= maxTime)%Z.
Proof.
  unfold TimeClip. destruct (Z.leb_spec (Z.abs x) maxTime); [|discriminate].
  intros [= <-]. auto.
Qed.

Lemma Date_parse_range E str t :
  Date_parse E str = Some t -> (Z.abs t <= maxTime)%Z.
Proof.
  unfold Date_parse, parseISO.
  destruct (parseFields _) as [f|].
  - destruct (validFields f).
    + intros H. apply TimeClip_Some in H. tauto.
    + destruct (legacyDateParse E str) as [x|]; [|discriminate].
      intros H. apply TimeClip_Some in H. tauto.
  - destruct (legacyDateParse E str) as [x|]; [|discriminate].
    intros H. apply TimeClip_Some in H. tauto.
Qed.

Lemma Date_parse_toISOString E t :
  (Z.abs t <= maxTime)%Z -> Date_parse E (toISOString t) = Some t.
Proof.
  intros Ht. unfold Date_parse. rewrite parseISO_toISOString by assumption.
  reflexivity.
Qed.

Lemma isDate_toISOString E t :
  (Z.abs t <= maxTime)%Z -> isDate E (toISOString t) = true.
Proof.
  intros Ht. unfold isDate.
  rewrite test_isoDateRE_toISOString, Date_parse_toISOString by assumption.
  destruct (String.eqb_spec (toISOString t) "") as [H|_].
  - destruct (toISOString_nonempty t H).
  - reflexivity.
Qed.

Lemma decodeValue_toISOString E t :
  (Z.abs t <= maxTime)%Z -> decodeValue E (toISOString t) = VDate (Some t).
Proof.
  intros Ht. unfold decodeValue.
  rewrite isDate_toISOString, Date_parse_toISOString by assumption. reflexivity.
Qed.

Lemma decodeValue_plain E str :
  isDate E str = false -> decodeValue E str = VString str.
Proof. intros H. unfold decodeValue. rewrite H. reflexivity. Qed.

Lemma decodeValue_cases E str :
  (isDate E str = false /\ decodeValue E str = VString str)
  \/ (exists t, (Z.abs t <= maxTime)%Z /\ isDate E str = true
                /\ decodeValue E str = VDate (Some t)).
Proof.
  unfold decodeValue. destruct (isDate E str) eqn:Hd; [right|left; auto].
  unfold isDate in Hd. apply andb_true_iff in Hd as [_ Hp].
  apply bool_decide_eq_true in Hp as [t Ht].
  exists t. rewrite Ht. eauto using Date_parse_range.
Qed.

Lemma decodeValue_valid E str : validDate (decodeValue E str) = true.
Proof.
  destruct (decodeValue_cases E str) as [[_ ->]|(t & Ht & _ & ->)]; cbn; [reflexivity|].
  apply Z.leb_le. exact Ht.
Qed.

(** Writing a value that was read leaves a text that reads as the same
    value. *)
Lemma decodeValue_fieldText E str :
  decodeValue E (fieldText E (decodeValue E str)) = decodeValue E str.
Proof.
  destruct (decodeValue_cases E str) as [[Hd ->]|(t & Ht & _ & ->)]; cbn.
  - apply decodeValue_plain, Hd.
  - apply decodeValue_toISOString, Ht.
Qed.

Lemma validDates_decoded E (h : gmap string string) :
  validDates (decodeValue E <$> h) = true.
Proof.
  unfold validDates. apply forallb_forall. intros [k v] Hin.
  apply list_elem_of_In, elem_of_map_to_list in Hin.
  rewrite lookup_fmap in Hin. destruct (h !! k); [|discriminate].
  injection Hin as <-. apply decodeValue_valid.
Qed.

Lemma validDates_spec (o : object) :
  validDates o = true <-> forall k v, o !! k = Some v -> validDate v = true.
Proof.
  split; [intros H k v; eauto using validDates_lookup|].
  intros H. unfold validDates. apply forallb_forall. intros [k v] Hin.
  apply list_elem_of_In, elem_of_map_to_list in Hin. eauto.
Qed.

Lemma validDates_spread (a b : object) :
  validDates a = true -> validDates b = true -> validDates (spread a b) = true.
Proof.
  rewrite !validDates_spec. intros Ha Hb k v. unfold spread.
  rewrite lookup_union_Some_raw. intros [H|[_ H]]; eauto.
Qed.

(** ** Round trip through a stored hash *)

Lemma set_then_load E key (record : object) (s : store) :
  validDates record = true -> ownFields record <> ∅ ->
  notString s key = true ->
  let h := (fieldText E <$> ownFields record) ∪ hashAt s key in
  let s' := hashWritten E key record s in
  setObjectAsHash E key record s = (s', Returned tt)
  /\ loadObjectFromHash E key s'
     = (s', Returned (Some (decodeValue E <$> ownFields h)))
  /\ hashAt s' key = h.
Proof.
  intros Hv Hne Hk h s'.
  assert (Hh : h <> ∅).
  { subst h. intros He. apply map_positive_l in He.
    apply fmap_empty_inv in He. contradiction. }
  split; [apply setObjectAsHash_returned; assumption|].
  split.
  - apply loadObjectFromHash_hash; [apply lookup_insert_eq|assumption].
  - unfold hashAt, s', hashWritten. rewrite lookup_insert_eq. reflexivity.
Qed.

(** ** The read functions *)

Lemma getUser_run E o id (s : store) :
  getUser E o id s = loadObjectFromHash E (getUserKey o id) s.
Proof.
  unfold getUser. rewrite bind_run.
  destruct (loadObjectFromHash E _ s) as [s' [[x|]|e]]; reflexivity.
Qed.

Lemma getAccount_run E o id (s : store) :
  getAccount E o id s = loadObjectFromHash E (getAccountKey o id) s.
Proof.
  unfold getAccount. rewrite bind_run.
  destruct (loadObjectFromHash E _ s) as [s' [[x|]|e]]; reflexivity.
Qed.

Lemma getSession_found E o id (s s' : store) (session : object) :
  getSession E o id s = (s', Returned (Some session)) ->
  exists x, loadObjectFromHash E (getSessionKey o id) s = (s', Returned (Some x))
            /\ session = spread {[ "id" := Js.prop x "id" ]} x.
Proof.
  unfold getSession. rewrite bind_run.
  destruct (loadObjectFromHash E _ s) as [s1 [[x|]|e]]; try discriminate.
  intros [= <- <-]. eauto.
Qed.

Lemma getSession_not_found E o id (s s' : store) :
  getSession E o id s = (s', Returned None) <->
  loadObjectFromHash E (getSessionKey o id) s = (s', Returned None).
Proof.
  unfold getSession. rewrite bind_run.
  destruct (loadObjectFromHash E _ s) as [s1 [[x|]|e]]; split;
    try discriminate; intros [= <-]; reflexivity.
Qed.

Lemma getVerificationToken_found E o id (s s' : store) (token : object) :
  getVerificationToken E o id s = (s', Returned (Some token)) ->
  exists x, loadObjectFromHash E (getVerificationKey o id) s = (s', Returned (Some x))
            /\ token = spread {[ "identifier" := Js.prop x "identifier" ]} x.
Proof.
  unfold getVerificationToken. rewrite bind_run.
  destruct (loadObjectFromHash E _ s) as [s1 [[x|]|e]]; try discriminate.
  intros [= <- <-]. eauto.
Qed.


(** ** Deleting *)

Ltac mrun := cbv [mbind M_bind mret M_ret del delKeys foldl set throw].


Lemma del_run k ks (s : store) :
  del (k :: ks) s
  = (delKeys (k :: ks) s, Returned (size s - size (delKeys (k :: ks) s))).
Proof. reflexivity. Qed.

(** [deleteAccount] on an account that is there: [HDEL] is sent without a
    field, the server refuses it, and nothing is deleted. *)
Lemma deleteAccount_found E o id (s : store) (account : object) :
  getAccount E o id s = (s, Returned (Some account)) ->
  deleteAccount E o id s = (s, Thrown ReplyError_wrong_arity).
Proof.
  rewrite getAccount_run. intros H. unfold deleteAccount.
  rewrite (bind_returned _ _ _ _ _ H). reflexivity.
Qed.

Lemma deleteAccount_absent E o id (s : store) :
  getAccount E o id s = (s, Returned None) ->
  deleteAccount E o id s = (s, Returned VNull).
Proof.
  rewrite getAccount_run. intros H. unfold deleteAccount.
  rewrite (bind_returned _ _ _ _ _ H). reflexivity.
Qed.

Lemma unlinkAccount_found E o providerAccountId provider (s : store) account :
  getAccount E o (getAccountId providerAccountId provider) s
  = (s, Returned (Some account)) ->
  unlinkAccount E o providerAccountId provider s
  = (s, Thrown ReplyError_wrong_arity).
Proof.
  intros H. unfold unlinkAccount.
  apply bind_thrown. eapply deleteAccount_found, H.
Qed.

Lemma unlinkAccount_absent E o providerAccountId provider (s : store) :
  getAccount E o (getAccountId providerAccountId provider) s
  = (s, Returned None) ->
  unlinkAccount E o providerAccountId provider s = (s, Returned tt).
Proof.
  intros H. unfold unlinkAccount.
  rewrite (bind_returned _ _ _ _ _ (deleteAccount_absent _ _ _ _ H)).
  reflexivity.
Qed.

(** The other delete functions, called a second time, find nothing. *)
Lemma deleteSession_twice E o sessionToken (s s1 : store) v :
  deleteSession E o sessionToken s = (s1, Returned v) ->
  deleteSession E o sessionToken s1 = (s1, Returned VNull).
Proof.
  unfold deleteSession at 1. rewrite bind_run.
  destruct (getSession E o sessionToken s) as [s0 [[session|]|e]] eqn:Hg;
    try discriminate.
  - mrun. intros [= <- _].
    match goal with |- deleteSession _ _ _ ?s1 = _ =>
      assert (Hn : getSession E o sessionToken s1 = (s1, Returned None))
    end.
    { apply getSession_not_found, loadObjectFromHash_absent.
      destruct (decide (getSessionByUserIdKey o (ToString E (Js.prop session "userId"))
                        = getSessionKey o sessionToken)) as [->|Hne].
      - apply lookup_delete_eq.
      - rewrite lookup_delete_ne by assumption. apply lookup_delete_eq. }
    unfold deleteSession. rewrite (bind_returned _ _ _ _ _ Hn). reflexivity.
  - rewrite ret_run. intros [= <- _].
    pose proof Hg as Hs.
    apply getSession_not_found, loadObjectFromHash_not_found in Hs as (-> & _).
    unfold deleteSession. rewrite (bind_returned _ _ _ _ _ Hg). reflexivity.
Qed.

Lemma deleteVerificationToken_twice o id (s : store) :
  exists s1, deleteVerificationToken o id s = (s1, Returned tt)
             /\ deleteVerificationToken o id s1 = (s1, Returned tt).
Proof.
  unfold deleteVerificationToken. mrun. eexists. split; [reflexivity|].
  rewrite delete_delete_eq. reflexivity.
Qed.

Lemma deleteUser_absent E o userId (s : store) :
  getUser E o userId s = (s, Returned None) ->
  deleteUser E o userId s = (s, Returned VNull).
Proof.
  intros H. unfold deleteUser. rewrite (bind_returned _ _ _ _ _ H). reflexivity.
Qed.

Lemma deleteUser_twice E o userId (s s1 : store) v :
  deleteUser E o userId s = (s1, Returned v) ->
  deleteUser E o userId s1 = (s1, Returned VNull).
Proof.
  unfold deleteUser at 1. rewrite bind_run.
  destruct (getUser E o userId s) as [s0 [[user|]|e]] eqn:Hg; try discriminate.
  - rewrite !bind_run.
    destruct (Redis.get _ s0) as [s2 [accountKey|e]]; [|discriminate].
    rewrite !bind_run.
    destruct (Redis.get _ s2) as [s3 [sessionKey|e]]; [|discriminate].
    rewrite !bind_run, del_run.
    destruct sessionKey as [[|? ?]|], accountKey as [[|? ?]|]; mrun;
      intros [= <- _]; apply deleteUser_absent; rewrite getUser_run;
      apply loadObjectFromHash_absent, lookup_delete_eq.
  - rewrite ret_run. intros [= <- _].
    pose proof Hg as Hs. rewrite getUser_run in Hs.
    apply loadObjectFromHash_not_found in Hs as (-> & _).
    apply deleteUser_absent, Hg.
Qed.

(** ** Framing: a read depends on its key only *)

Lemma loadObjectFromHash_store E key (s : store) :
  (loadObjectFromHash E key s).1 = s.
Proof.
  rewrite loadObjectFromHash_run. destruct (s !! key) as [[v|h]|]; reflexivity.
Qed.

Lemma loadObjectFromHash_frame E key (s s' : store) r :
  loadObjectFromHash E key s = (s, r) -> s' !! key = s !! key ->
  loadObjectFromHash E key s' = (s', r).
Proof.
  rewrite !loadObjectFromHash_run. unfold hashAt. intros H ->.
  destruct (s !! key) as [[v|h]|]; injection H as <-; reflexivity.
Qed.

Lemma notString_frame (s s' : store) key :
  s' !! key = s !! key -> notString s' key = notString s key.
Proof. unfold notString. intros ->. reflexivity. Qed.

Lemma hashAt_frame (s s' : store) key :
  s' !! key = s !! key -> hashAt s' key = hashAt s key.
Proof. unfold hashAt. intros ->. reflexivity. Qed.

Lemma get_string key (s : store) v :
  s !! key = Some (EString v) -> Redis.get key s = (s, Returned (Some v)).
Proof. intros H. unfold Redis.get. rewrite H. reflexivity. Qed.

Lemma get_absent key (s : store) :
  s !! key = None -> Redis.get key s = (s, Returned None).
Proof. intros H. unfold Redis.get. rewrite H. reflexivity. Qed.

(** ** The write functions *)

Lemma spread_non_empty (a b : object) k v : b !! k = Some v -> spread a b <> ∅.
Proof.
  intros Hk He. unfold spread in He. apply map_positive_l in He.
  rewrite He, lookup_empty in Hk. discriminate.
Qed.

Lemma spread_own_non_empty (a b : object) k v :
  b !! k = Some v -> k <> "__proto__" -> ownFields (spread a b) <> ∅.
Proof.
  intros Hk Hne. apply (ownFields_non_empty _ k v); [|exact Hne].
  unfold spread. apply lookup_union_Some_l, Hk.
Qed.

Lemma spread_lookup_l (a b : object) k v :
  b !! k = Some v -> spread a b !! k = Some v.
Proof. intros H. unfold spread. apply lookup_union_Some_l, H. Qed.

Lemma spread_lookup_r (a b : object) k :
  b !! k = None -> spread a b !! k = a !! k.
Proof. intros H. unfold spread. apply lookup_union_r, H. Qed.

Lemma get_spread_l (a b : object) k v :
  b !! k = Some v -> Js.prop (spread a b) k = v.
Proof. intros H. unfold Js.prop. rewrite (spread_lookup_l _ _ _ _ H). reflexivity. Qed.

Lemma get_spread_r (a b : object) k :
  b !! k = None -> Js.prop (spread a b) k = Js.prop a k.
Proof. intros H. unfold Js.prop. rewrite (spread_lookup_r _ _ _ H). reflexivity. Qed.

Lemma setUser_run E o id (user : object) (s : store) :
  validDates user = true -> ownFields user <> ∅ ->
  notString s (getUserKey o id) = true ->
  setUser E o (VString id) user s = (userWritten E o id user s, Returned user).
Proof.
  intros Hv Hne Hk. unfold setUser, userWritten.
  rewrite (bind_returned _ _ _ _ _ (setObjectAsHash_returned E _ _ _ Hv Hne Hk)).
  destruct (truthy _); reflexivity.
Qed.

Lemma setAccount_run E o id (account : object) (s : store) :
  validDates account = true -> ownFields account <> ∅ ->
  notString s (getAccountKey o id) = true ->
  setAccount E o id account s = (accountWritten E o id account s, Returned account).
Proof.
  intros Hv Hne Hk. unfold setAccount.
  rewrite (bind_returned _ _ _ _ _ (setObjectAsHash_returned E _ _ _ Hv Hne Hk)).
  reflexivity.
Qed.

Lemma setSession_run E o id (session : object) (s : store) :
  validDates session = true -> ownFields session <> ∅ ->
  notString s (getSessionKey o id) = true ->
  setSession E o id session s = (sessionWritten E o id session s, Returned session).
Proof.
  intros Hv Hne Hk. unfold setSession.
  rewrite (bind_returned _ _ _ _ _ (setObjectAsHash_returned E _ _ _ Hv Hne Hk)).
  reflexivity.
Qed.

Lemma validDates_singleton k v : validDate v = true -> validDates {[ k := v ]} = true.
Proof.
  intros H. apply validDates_spec. intros k' v'.
  rewrite lookup_singleton_Some. intros [_ <-]. exact H.
Qed.

(** [deleteUser] on a user that is there, with the two pointers read. *)
Lemma deleteUser_run E o userId (user : object) (s : store) accountKey sessionKey :
  getUser E o userId s = (s, Returned (Some user)) ->
  Redis.get (getAccountByUserIdKey o userId) s = (s, Returned accountKey) ->
  Redis.get (getSessionByUserIdKey o userId) s = (s, Returned sessionKey) ->
  deleteUser E o userId s
  = (delete (getUserKey o userId)
       (delPointed accountKey
          (delPointed sessionKey
             (delete (getSessionByUserIdKey o userId)
                (delete (getAccountByUserIdKey o userId)
                   (delete (getUserByEmailKey o (ToString E (Js.prop user "email")))
                      s))))),
     Returned VUndefined).
Proof.
  intros Hu Ha Hs. unfold deleteUser.
  rewrite (bind_returned _ _ _ _ _ Hu), (bind_returned _ _ _ _ _ Ha),
    (bind_returned _ _ _ _ _ Hs).
  destruct sessionKey as [[|? ?]|], accountKey as [[|? ?]|]; reflexivity.
Qed.

(** ** Keys *)

Lemma app_assoc (a b c : string) : (a +:+ b) +:+ c = a +:+ (b +:+ c).
Proof.
  induction a as [|x a IH]; [reflexivity|].
  cbv [String.append] in *. fold String.append in *. f_equal. exact IH.
Qed.

Lemma app_cons x (a b : string) : String x a +:+ b = String x (a +:+ b).
Proof. reflexivity. Qed.

Lemma app_nil (b : string) : "" +:+ b = b.
Proof. reflexivity. Qed.

(** Two keys under the same base prefix differ when they differ after it. *)
Lemma keys_differ (base p q x y : string) :
  p +:+ x <> q +:+ y -> (base +:+ p) +:+ x <> (base +:+ q) +:+ y.
Proof.
  intros Hne Heq. rewrite !app_assoc in Heq.
  apply (inj (String.app base)) in Heq. contradiction.
Qed.

Lemma getUserByEmailKey_inj o : Inj (=) (=) (getUserByEmailKey o).
Proof. intros x y H. unfold getUserByEmailKey in H. exact (inj _ _ _ H). Qed.

Lemma separated_default_prefixes o base :
  prefixOf o userKeyPrefix = base +:+ "user:" ->
  prefixOf o accountKeyPrefix = base +:+ "account:" ->
  prefixOf o accountByUserIdPrefix = base +:+ "account:user:" ->
  prefixOf o sessionKeyPrefix = base +:+ "session:" ->
  prefixOf o sessionByUserIdPrefix = base +:+ "session:user:" ->
  separated o.
Proof.
  intros Hu Ha Hau Hs Hsu x y.
  unfold getUserKey, getAccountKey, getAccountByUserIdKey, getSessionKey,
    getSessionByUserIdKey.
  rewrite Hu, Ha, Hau, Hs, Hsu.
  repeat split; apply keys_differ; rewrite !app_cons; discriminate.
Qed.

Lemma separated_withBase base : separated (withBase base).
Proof. apply (separated_default_prefixes _ base); reflexivity. Qed.

Lemma separated_defaultOptions : separated defaultOptions.
Proof. apply (separated_default_prefixes _ ""); reflexivity. Qed.

(** A string [uuid()] returns is not empty, and under the default prefixes
    the key of a user with such an id is no email pointer. *)
Lemma isUuid_not_empty U : isUuid U = true -> U <> "".
Proof. intros H ->. discriminate. Qed.

Lemma isUuid_not_email U e : isUuid U = true -> U <> "email:" +:+ e.
Proof.
  intros H ->. rewrite !app_cons in H. discriminate.
Qed.

Lemma user_key_not_email_key o base U :
  prefixOf o userKeyPrefix = base +:+ "user:" ->
  prefixOf o userByEmailKeyPrefix = base +:+ "user:email:" ->
  (forall e, U <> "email:" +:+ e) ->
  forall e, getUserKey o U <> getUserByEmailKey o e.
Proof.
  intros Hu He HU e. unfold getUserKey, getUserByEmailKey. rewrite Hu, He.
  apply keys_differ. rewrite !app_cons, !app_nil.
  intros [= H]. exact (HU e H).
Qed.

Lemma uuid_key_not_email_key base U e :
  isUuid U = true ->
  getUserKey (withBase base) U <> getUserByEmailKey (withBase base) e.
Proof.
  intros HU. apply (user_key_not_email_key _ base); try reflexivity.
  intros e'. apply isUuid_not_email, HU.
Qed.

Lemma get_lookup (o : object) k v :
  Js.prop o k = v -> v <> VUndefined -> o !! k = Some v.
Proof.
  unfold Js.prop. destruct (o !! k) as [x|]; cbn; [intros ->; reflexivity|].
  intros <-. congruence.
Qed.

Lemma key_not_empty (p x : string) : p <> "" -> p +:+ x <> "".
Proof. destruct p; [congruence|discriminate]. Qed.

Lemma separated_session_prefix o :
  separated o -> prefixOf o sessionKeyPrefix <> "".
Proof.
  intros Hsep He.
  destruct (Hsep "" (getUserKey o "")) as (_ & _ & H & _).
  apply H. unfold getSessionKey. rewrite He. reflexivity.
Qed.

Lemma getAccountKey_not_empty o providerAccountId provider :
  getAccountKey o (getAccountId providerAccountId provider) <> "".
Proof.
  unfold getAccountKey, getAccountId.
  destruct (prefixOf o accountKeyPrefix); [|discriminate].
  destruct provider; discriminate.
Qed.

Lemma delPointed_key k (s : store) : k <> "" -> delPointed (Some k) s = delete k s.
Proof. destruct k; [congruence|reflexivity]. Qed.


(** ** Users written and read back *)

Lemma getUser_notString E o id (s : store) r :
  getUser E o id s = (s, Returned r) -> notString s (getUserKey o id) = true.
Proof.
  rewrite getUser_run, loadObjectFromHash_run. unfold notString.
  destruct (s !! getUserKey o id) as [[v|h]|]; [discriminate|reflexivity..].
Qed.

Lemma getUser_decoded E o id (s : store) r :
  getUser E o id s = (s, Returned r) ->
  default ∅ r = decodeValue E <$> ownFields (hashAt s (getUserKey o id)).
Proof.
  rewrite getUser_run. destruct r as [user|]; intros H.
  - apply loadObjectFromHash_found in H as (_ & _ & _ & ->). reflexivity.
  - apply loadObjectFromHash_not_found in H as (_ & -> & _).
    unfold ownFields. rewrite delete_empty, fmap_empty. reflexivity.
Qed.

Lemma updateUser_run E o (updates : object) U (s : store) stored :
  Js.prop updates "id" = VString U -> validDates updates = true ->
  getUser E o U s = (s, Returned stored) ->
  let merged := spread (default ∅ stored) updates in
  updateUser E o updates s = (userWritten E o U merged s, Returned merged).
Proof.
  intros Hid Hv Hu merged. unfold updateUser. rewrite Hid. cbn [ToString].
  rewrite (bind_returned _ _ _ _ _ Hu). fold merged.
  apply setUser_run.
  - apply validDates_spread; [|exact Hv].
    rewrite (getUser_decoded _ _ _ _ _ Hu). apply validDates_decoded.
  - apply (spread_own_non_empty _ _ "id" (VString U)); [|discriminate].
    apply get_lookup; [exact Hid|discriminate].
  - eapply getUser_notString, Hu.
Qed.

(** The hash of a user after [setUser], when the email pointer is not
    written over it. *)
Lemma userWritten_hash E o id (user : object) (s : store) :
  getUserKey o id <> getUserByEmailKey o (ToString E (Js.prop user "email")) ->
  userWritten E o id user s !! getUserKey o id
  = Some (EHash ((fieldText E <$> ownFields user)
                 ∪ hashAt s (getUserKey o id))).
Proof.
  intros Hne. unfold userWritten, hashWritten.
  destruct (truthy _).
  - rewrite lookup_insert_ne by (apply not_eq_sym, Hne). apply lookup_insert_eq.
  - apply lookup_insert_eq.
Qed.

Lemma userWritten_read E o id (user : object) (s : store) :
  getUserKey o id <> getUserByEmailKey o (ToString E (Js.prop user "email")) ->
  ownFields user <> ∅ ->
  let s' := userWritten E o id user s in
  getUser E o id s'
  = (s', Returned (Some (decodeValue E
                           <$> ownFields ((fieldText E <$> ownFields user)
                                          ∪ hashAt s (getUserKey o id))))).
Proof.
  intros Hne Hu s'. rewrite getUser_run.
  apply loadObjectFromHash_hash; [apply userWritten_hash, Hne|].
  intros He. apply map_positive_l, fmap_empty_inv in He. contradiction.
Qed.

(** A field of the merge, as it is read back. *)
Lemma merged_field_supplied E (h : gmap string string) (stored updates : object) f v :
  f <> "__proto__" -> updates !! f = Some v ->
  ((fieldText E <$> ownFields (spread stored updates)) ∪ h) !! f
  = Some (fieldText E v).
Proof.
  intros Hp Hf. apply lookup_union_Some_l.
  rewrite lookup_fmap, ownFields_lookup_ne, (spread_lookup_l _ _ _ _ Hf)
    by exact Hp.
  reflexivity.
Qed.

Lemma merged_field_kept E (h : gmap string string) (updates : object) f :
  updates !! f = None ->
  (decodeValue E
     <$> ownFields ((fieldText E
                       <$> ownFields (spread (decodeValue E <$> ownFields h)
                                             updates)) ∪ h)) !! f
  = (decodeValue E <$> ownFields h) !! f.
Proof.
  intros Hf. destruct (decide (f = "__proto__")) as [->|Hp].
  - rewrite !lookup_fmap, !ownFields_lookup_proto. reflexivity.
  - rewrite !lookup_fmap, !ownFields_lookup_ne by exact Hp.
    rewrite lookup_union, lookup_fmap, ownFields_lookup_ne by exact Hp.
    rewrite (spread_lookup_r _ _ _ Hf), lookup_fmap.
    rewrite ownFields_lookup_ne by exact Hp.
    destruct (h !! f) as [str|]; cbn; [|reflexivity].
    rewrite decodeValue_fieldText. reflexivity.
Qed.


(** ** Sessions *)

Lemma getSession_notString E o id (s : store) r :
  getSession E o id s = (s, Returned r) -> notString s (getSessionKey o id) = true.
Proof.
  unfold getSession. rewrite bind_run, loadObjectFromHash_run. unfold notString.
  destruct (s !! getSessionKey o id) as [[v|h]|]; [discriminate|reflexivity..].
Qed.

Lemma getSession_valid E o id (s : store) session :
  getSession E o id s = (s, Returned (Some session)) -> validDates session = true.
Proof.
  intros H. apply getSession_found in H as (x & Hx & ->).
  apply loadObjectFromHash_found in Hx as (_ & _ & _ & ->).
  apply validDates_spread; [|apply validDates_decoded].
  apply validDates_singleton. unfold Js.prop. rewrite lookup_fmap.
  destruct (_ !! "id"); cbn; [apply decodeValue_valid|reflexivity].
Qed.

Lemma updateSession_found E o (updates session : object) sessionToken (s : store) :
  Js.prop updates "sessionToken" = VString sessionToken ->
  validDates updates = true ->
  getSession E o sessionToken s = (s, Returned (Some session)) ->
  let merged := spread session updates in
  updateSession E o updates s
  = (sessionWritten E o sessionToken merged s, Returned (Some merged)).
Proof.
  intros Hid Hv Hs merged. unfold updateSession. rewrite Hid. cbn [ToString].
  rewrite (bind_returned _ _ _ _ _ Hs). fold merged.
  rewrite (bind_returned _ _ _ _ _
             (setSession_run E o sessionToken merged s
                (validDates_spread _ _ (getSession_valid _ _ _ _ _ Hs) Hv)
                (spread_own_non_empty _ _ _ _
                   (get_lookup _ _ _ Hid ltac:(discriminate))
                   ltac:(discriminate))
                (getSession_notString _ _ _ _ _ Hs))).
  reflexivity.
Qed.

Lemma updateSession_not_found E o (updates : object) sessionToken (s : store) :
  Js.prop updates "sessionToken" = VString sessionToken ->
  getSession E o sessionToken s = (s, Returned None) ->
  updateSession E o updates s = (s, Returned None).
Proof.
  intros Hid Hs. unfold updateSession. rewrite Hid. cbn [ToString].
  rewrite (bind_returned _ _ _ _ _ Hs). reflexivity.
Qed.

(** ** The scenarios of the specification, evaluated *)

(** Merge-update: [{id: "1", name: "A", email: "a@x.com"}] updated with
    [{id: "1", name: "B"}]. *)
Example updateUser_merge_example E :
  let s : store :=
    {[ "user:1" := EHash {[ "id" := "1"; "name" := "A"; "email" := "a@x.com" ]};
       "user:email:a@x.com" := EString "1" ]} in
  let s' : store :=
    {[ "user:1" := EHash {[ "id" := "1"; "name" := "B"; "email" := "a@x.com" ]};
       "user:email:a@x.com" := EString "1" ]} in
  updateUser E defaultOptions {[ "id" := VString "1"; "name" := VString "B" ]} s
  = (s', Returned {[ "id" := VString "1"; "name" := VString "B";
                     "email" := VString "a@x.com" ]}).
Proof. reflexivity. Qed.

(** [linkAccount] for user ["1"], then [getUserByAccount]. *)
Example getUserByAccount_example E :
  let s : store :=
    {[ "user:1" := EHash {[ "id" := "1"; "name" := "A" ]} ]} in
  let account : object :=
    {[ "provider" := VString "github"; "providerAccountId" := VString "42";
       "userId" := VString "1" ]} in
  getUserByAccount E defaultOptions "42" "github"
    (linkAccount E defaultOptions account s).1
  = ((linkAccount E defaultOptions account s).1,
     Returned (Some {[ "id" := VString "1"; "name" := VString "A" ]})).
Proof. reflexivity. Qed.

(** A session and its user, read together. *)
Example getSessionAndUser_example E :
  (getSessionAndUser E defaultOptions "tok" (exampleStore E)).2
  = Returned (Some (spread exampleSession {[ "id" := VString "tok" ]},
                    spread exampleUser {[ "id" := VString exampleId ]})).
Proof. reflexivity. Qed.

End AdapterFacts.

(** * The properties of the specification *)

Import JsDate JsRegExp Js Redis Adapter.
Import JsDateFacts JsRegExpFacts AdapterFacts.

(** C1.  A record of strings and timestamps written with [setObjectAsHash]
    and read with [loadObjectFromHash]: every timestamp field is stored as
    the text [toISOString] gives and is read back as a [Date] of exactly the
    same instant.  The fields are those the codec copies, which is every
    field but one named [__proto__]; the record has such a field, since
    [HSET] needs one. *)
Theorem hash_codec_round_trip (E : Engine) (key : string) (record : object)
    (s : store) :
  validDates record = true -> ownFields record <> ∅ ->
  notString s key = true ->
  exists (s' : store) (decoded : object),
    setObjectAsHash E key record s = (s', Returned tt)
    /\ loadObjectFromHash E key s' = (s', Returned (Some decoded))
    /\ forall f t, f <> "__proto__" -> record !! f = Some (VDate (Some t)) ->
         hashAt s' key !! f = Some (toISOString t)
         /\ decoded !! f = Some (VDate (Some t)).
Proof.
  intros Hv Hne Hk.
  destruct (set_then_load E key record s Hv Hne Hk) as (Hset & Hload & Hh).
  eexists _, _. split; [exact Hset|]. split; [exact Hload|].
  intros f t Hp Hf. rewrite Hh.
  assert (Ht : (Z.abs t <= maxTime)%Z).
  { apply Z.leb_le. exact (validDates_lookup record f _ Hv Hf). }
  assert (Hfield : ((fieldText E <$> ownFields record) ∪ hashAt s key) !! f
                   = Some (toISOString t)).
  { apply lookup_union_Some_l.
    rewrite lookup_fmap, ownFields_lookup_ne, Hf by exact Hp. reflexivity. }
  split; [exact Hfield|].
  rewrite lookup_fmap, ownFields_lookup_ne, Hfield by exact Hp. cbn. f_equal.
  apply decodeValue_toISOString, Ht.
Qed.

Lemma hash_codec_round_trip_witness :
  let record : object :=
    {[ "sessionToken" := VString "tok"; "userId" := VString "1";
       "expires" := VDate (Some 1700000000123%Z) ]} in
  validDates record = true /\ ownFields record <> ∅
  /\ notString ∅ "session:tok" = true
  /\ exists (s' : store) (decoded : object),
    setObjectAsHash utcEngine "session:tok" record ∅ = (s', Returned tt)
    /\ loadObjectFromHash utcEngine "session:tok" s' = (s', Returned (Some decoded))
    /\ forall f t, f <> "__proto__" -> record !! f = Some (VDate (Some t)) ->
         hashAt s' "session:tok" !! f = Some (toISOString t)
         /\ decoded !! f = Some (VDate (Some t)).
Proof.
  intros record.
  assert (H1 : validDates record = true) by reflexivity.
  assert (H2 : ownFields record <> ∅).
  { apply (ownFields_non_empty record "userId" (VString "1"));
      [reflexivity|discriminate]. }
  assert (H3 : notString ∅ "session:tok" = true) by reflexivity.
  split; [exact H1|]. split; [exact H2|]. split; [exact H3|].
  exact (hash_codec_round_trip utcEngine "session:tok" record ∅ H1 H2 H3).
Defined.

(** C2: the code at a linked account.  [linkAccount] stores the account
    and its pointer; [unlinkAccount] on it throws the server's error for
    [HDEL] without a field and deletes nothing: the account is still read
    and the pointer is still there.  Unlinking an account that is not there
    returns without an error. *)
Theorem unlinkAccount_linked_account_throws (E : Engine) :
  let linked := spread exampleAccount {[ "id" := VString "github:42" ]} in
  let s : store :=
    {[ "account:github:42" := EHash (fieldText E <$> linked);
       "account:user:9b2e7c1a-5d3f-4a8b-9c6d-0e1f2a3b4c5d"
         := EString "account:github:42" ]} in
  linkAccount E defaultOptions exampleAccount ∅ = (s, Returned linked)
  /\ getAccount E defaultOptions "github:42" s = (s, Returned (Some linked))
  /\ unlinkAccount E defaultOptions "42" "github" s
     = (s, Thrown ReplyError_wrong_arity)
  /\ unlinkAccount E defaultOptions "43" "github" s = (s, Returned tt).
Proof.
  intros linked s.
  assert (Hget : getAccount E defaultOptions "github:42" s
                 = (s, Returned (Some linked))) by reflexivity.
  split; [reflexivity|]. split; [exact Hget|]. split.
  - exact (unlinkAccount_found E defaultOptions "42" "github" s linked Hget).
  - reflexivity.
Qed.




(** C4.  A stored user [U] with an email, an account linked to [U] and a
    session created for [U]: after [deleteUser U] the user, the account and
    the session are not found, and the email pointer, the account-by-user
    pointer and the session-by-user pointer are gone.  [deleteUser] on an id
    that is not found returns [null] and leaves the store as it is. *)
Theorem deleteUser_cascade (E : Engine) (options : IORedisAdapterOptions)
    (U e : string) (user account session : object) (s0 : store) :
  separated options ->
  getUser E options U s0 = (s0, Returned (Some user)) ->
  Js.prop user "email" = VString e ->
  Js.prop account "userId" = VString U -> validDates account = true ->
  Js.prop session "userId" = VString U -> validDates session = true ->
  let accountId :=
    getAccountId (ToString E (Js.prop account "providerAccountId"))
                 (ToString E (Js.prop account "provider")) in
  let sessionToken := ToString E (Js.prop session "sessionToken") in
  notString s0 (getAccountKey options accountId) = true ->
  notString s0 (getSessionKey options sessionToken) = true ->
  (exists (s1 s2 s3 : store) (account' session' : object),
      linkAccount E options account s0 = (s1, Returned account')
      /\ createSession E options session s1 = (s2, Returned session')
      /\ deleteUser E options U s2 = (s3, Returned VUndefined)
      /\ getUser E options U s3 = (s3, Returned None)
      /\ getAccount E options accountId s3 = (s3, Returned None)
      /\ getSession E options sessionToken s3 = (s3, Returned None)
      /\ s3 !! getUserByEmailKey options e = None
      /\ s3 !! getAccountByUserIdKey options U = None
      /\ s3 !! getSessionByUserIdKey options U = None)
  /\ (forall (s : store) (id : string),
        getUser E options id s = (s, Returned None) ->
        deleteUser E options id s = (s, Returned VNull)).
Proof.
  intros Hsep Hu He HaU Hav HsU Hsv accountId sessionToken Hka Hks.
  split; [|intros s id; apply deleteUser_absent].
  set (Ku := getUserKey options U).
  set (Ka := getAccountKey options accountId) in *.
  set (Pa := getAccountByUserIdKey options U).
  set (Ks := getSessionKey options sessionToken) in *.
  set (Ps := getSessionByUserIdKey options U).
  destruct (Hsep U accountId) as (D1 & _).
  destruct (Hsep U U) as (_ & D2 & _ & D4 & _ & _ & _ & D8).
  destruct (Hsep U sessionToken) as (_ & _ & D3 & _ & _ & _ & D7 & _).
  destruct (Hsep accountId sessionToken) as (_ & _ & _ & _ & D5 & _).
  destruct (Hsep accountId U) as (_ & _ & _ & _ & _ & D6 & _).
  fold Ku Ka Pa Ks Ps in D1, D2, D3, D4, D5, D6, D7, D8.
  (* linkAccount *)
  set (account' := spread account {[ "id" := VString accountId ]}).
  assert (Hav' : validDates account' = true)
    by (apply validDates_spread; [assumption|apply validDates_singleton; reflexivity]).
  assert (Hne' : ownFields account' <> ∅)
    by (eapply spread_own_non_empty;
        [apply lookup_singleton_eq|discriminate]).
  assert (HaU' : Js.prop account' "userId" = VString U)
    by (unfold account'; rewrite get_spread_r by reflexivity; exact HaU).
  pose proof (setAccount_run E options accountId account' s0 Hav' Hne' Hka) as Hlink.
  unfold accountWritten, hashWritten in Hlink.
  fold Ka in Hlink. rewrite HaU' in Hlink. cbn [ToString] in Hlink. fold Pa in Hlink.
  set (s1 := <[Pa := EString Ka]> (<[Ka := _]> s0)) in Hlink.
  (* createSession *)
  set (session' := spread session {[ "id" := Js.prop session "sessionToken" ]}).
  assert (Hsv' : validDates session' = true).
  { apply validDates_spread; [assumption|]. apply validDates_singleton.
    unfold Js.prop. destruct (session !! "sessionToken") as [v|] eqn:Hv;
      [exact (validDates_lookup _ _ _ Hsv Hv)|reflexivity]. }
  assert (Hsne' : ownFields session' <> ∅)
    by (eapply spread_own_non_empty;
        [apply lookup_singleton_eq|discriminate]).
  assert (HsU' : Js.prop session' "userId" = VString U)
    by (unfold session'; rewrite get_spread_r by reflexivity; exact HsU).
  assert (Hks1 : notString s1 Ks = true).
  { rewrite <- Hks. apply notString_frame. unfold s1.
    rewrite !lookup_insert_ne by congruence. reflexivity. }
  pose proof (setSession_run E options sessionToken session' s1 Hsv' Hsne' Hks1)
    as Hcreate.
  unfold sessionWritten, hashWritten in Hcreate.
  fold Ks in Hcreate. rewrite HsU' in Hcreate. cbn [ToString] in Hcreate.
  fold Ps in Hcreate.
  set (s2 := <[Ps := EString Ks]> (<[Ks := _]> s1)) in Hcreate.
  (* deleteUser *)
  assert (Hu2 : getUser E options U s2 = (s2, Returned (Some user))).
  { rewrite getUser_run in *. eapply loadObjectFromHash_frame; [exact Hu|].
    fold Ku. unfold s2, s1. rewrite !lookup_insert_ne by congruence. reflexivity. }
  assert (Hga : Redis.get Pa s2 = (s2, Returned (Some Ka))).
  { apply get_string. unfold s2, s1.
    rewrite !lookup_insert_ne by congruence. apply lookup_insert_eq. }
  assert (Hgs : Redis.get Ps s2 = (s2, Returned (Some Ks))).
  { apply get_string. unfold s2. apply lookup_insert_eq. }
  pose proof (deleteUser_run E options U user s2 _ _ Hu2 Hga Hgs) as Hdel.
  rewrite He in Hdel. cbn [ToString] in Hdel.
  rewrite !delPointed_key in Hdel;
    [|apply key_not_empty, separated_session_prefix, Hsep
     |apply getAccountKey_not_empty].
  fold Ku Pa Ps in Hdel.
  set (s3 := delete Ku _) in Hdel.
  exists s1, s2, s3, account', session'.
  split; [exact Hlink|]. split; [exact Hcreate|]. split; [exact Hdel|].
  assert (L : forall k, k = Ku \/ k = Ka \/ k = Ks \/ k = Ps \/ k = Pa
                        \/ k = getUserByEmailKey options e -> s3 !! k = None).
  { intros k Hk. unfold s3.
    repeat (rewrite lookup_delete; case_decide; [reflexivity|]).
    intuition congruence. }
  split; [rewrite getUser_run; apply loadObjectFromHash_absent, L; auto|].
  split; [rewrite getAccount_run; apply loadObjectFromHash_absent, L; auto|].
  split; [apply getSession_not_found, loadObjectFromHash_absent, L; auto 6|].
  repeat split; apply L; auto 10.
Qed.

Lemma deleteUser_cascade_witness :
  let s0 := (createUser utcEngine defaultOptions exampleId exampleUser ∅).1 in
  let user := spread exampleUser {[ "id" := VString exampleId ]} in
  getUser utcEngine defaultOptions exampleId s0 = (s0, Returned (Some user))
  /\ (exists (s1 s2 s3 : store) (account' session' : object),
        linkAccount utcEngine defaultOptions exampleAccount s0
        = (s1, Returned account')
        /\ createSession utcEngine defaultOptions exampleSession s1
           = (s2, Returned session')
        /\ deleteUser utcEngine defaultOptions exampleId s2
           = (s3, Returned VUndefined)
        /\ getUser utcEngine defaultOptions exampleId s3 = (s3, Returned None)
        /\ getAccount utcEngine defaultOptions "github:42" s3 = (s3, Returned None)
        /\ getSession utcEngine defaultOptions "tok" s3 = (s3, Returned None)
        /\ s3 !! getUserByEmailKey defaultOptions "a@x.com" = None
        /\ s3 !! getAccountByUserIdKey defaultOptions exampleId = None
        /\ s3 !! getSessionByUserIdKey defaultOptions exampleId = None)
  /\ deleteUser utcEngine defaultOptions "nobody" ∅ = (∅, Returned VNull).
Proof.
  intros s0 user.
  assert (Hu : getUser utcEngine defaultOptions exampleId s0
               = (s0, Returned (Some user))) by reflexivity.
  destruct (deleteUser_cascade utcEngine defaultOptions exampleId "a@x.com"
              user exampleAccount exampleSession s0
              separated_defaultOptions Hu eq_refl eq_refl eq_refl
              eq_refl eq_refl eq_refl
              eq_refl) as [H1 H2].
  split; [exact Hu|]. split; [exact H1|].
  apply H2. reflexivity.
Defined.

(** C5.  [updateUser] on a stored user returns the stored record with the
    supplied fields laid over it and persists it: a supplied field has the
    supplied value in the returned record and, unless it is named
    [__proto__] (the one name the codec does not copy), its text in the
    hash; a field the update does not name keeps its value, in the returned
    record and in the record read back. *)
Theorem updateUser_shallow_merge (E : Engine) (options : IORedisAdapterOptions)
    (updates user : object) (U : string) (s : store) :
  Js.prop updates "id" = VString U ->
  validDates updates = true ->
  getUser E options U s = (s, Returned (Some user)) ->
  (forall e, getUserKey options U <> getUserByEmailKey options e) ->
  exists (s' : store) (returned persisted : object),
    updateUser E options updates s = (s', Returned returned)
    /\ getUser E options U s' = (s', Returned (Some persisted))
    /\ (forall f v, updates !! f = Some v ->
          returned !! f = Some v
          /\ (f <> "__proto__" ->
              hashAt s' (getUserKey options U) !! f = Some (fieldText E v)
              /\ persisted !! f = Some (decodeValue E (fieldText E v))))
    /\ (forall f, updates !! f = None ->
          returned !! f = user !! f /\ persisted !! f = user !! f).
Proof.
  intros Hid Hv Hu Hne.
  pose proof (updateUser_run E options updates U s _ Hid Hv Hu) as Hrun.
  cbn [from_option id] in Hrun.
  assert (Hm : ownFields (spread user updates) <> ∅).
  { apply (spread_own_non_empty _ _ "id" (VString U)); [|discriminate].
    apply get_lookup; [exact Hid|discriminate]. }
  pose proof (userWritten_read E options U _ s (Hne _) Hm) as Hread.
  pose proof (userWritten_hash E options U (spread user updates) s (Hne _)) as Hhash.
  pose proof (getUser_decoded _ _ _ _ _ Hu) as Hdec. cbn [from_option id] in Hdec.
  exists (userWritten E options U (spread user updates) s), (spread user updates).
  eexists. split; [exact Hrun|]. split; [exact Hread|]. split.
  - intros f v Hf. split; [exact (spread_lookup_l _ _ _ _ Hf)|].
    intros Hp. unfold hashAt at 1. rewrite Hhash.
    rewrite lookup_fmap, ownFields_lookup_ne by exact Hp.
    rewrite (merged_field_supplied E _ user updates f v Hp Hf).
    auto.
  - intros f Hf. split; [exact (spread_lookup_r _ _ _ Hf)|].
    rewrite Hdec. apply merged_field_kept, Hf.
Qed.

Lemma updateUser_shallow_merge_witness :
  let stored : gmap string string :=
    {[ "id" := "1"; "name" := "A"; "email" := "a@x.com" ]} in
  let s : store :=
    {[ "user:1" := EHash stored; "user:email:a@x.com" := EString "1" ]} in
  let user : object :=
    {[ "id" := VString "1"; "name" := VString "A"; "email" := VString "a@x.com" ]} in
  let updates : object := {[ "id" := VString "1"; "name" := VString "B" ]} in
  getUser utcEngine defaultOptions "1" s = (s, Returned (Some user))
  /\ exists (s' : store) (returned persisted : object),
    updateUser utcEngine defaultOptions updates s = (s', Returned returned)
    /\ getUser utcEngine defaultOptions "1" s' = (s', Returned (Some persisted))
    /\ (forall f v, updates !! f = Some v ->
          returned !! f = Some v
          /\ (f <> "__proto__" ->
              hashAt s' (getUserKey defaultOptions "1") !! f
              = Some (fieldText utcEngine v)
              /\ persisted !! f
                 = Some (decodeValue utcEngine (fieldText utcEngine v))))
    /\ (forall f, updates !! f = None ->
          returned !! f = user !! f /\ persisted !! f = user !! f).
Proof.
  intros stored s user updates.
  assert (Hu : getUser utcEngine defaultOptions "1" s = (s, Returned (Some user)))
    by reflexivity.
  split; [exact Hu|].
  apply (updateUser_shallow_merge utcEngine defaultOptions updates user "1" s
           eq_refl eq_refl Hu).
  apply (user_key_not_email_key defaultOptions ""); try reflexivity.
  intros e. rewrite !app_cons. discriminate.
Defined.

(** C6, as stated, fails: when there is no prior record [updateUser]
    writes the update as a new user and [updateSession] writes nothing. *)
Lemma updateSession_differs_without_prior_record :
  let userUpdates : object := {[ "id" := VString "1"; "name" := VString "B" ]} in
  let sessionUpdates : object :=
    {[ "sessionToken" := VString "tok"; "expires" := VDate (Some 1700000000123%Z) ]} in
  (forall E, getUser E defaultOptions "1" ∅ = (∅, Returned None))
  /\ (forall E, getSession E defaultOptions "tok" ∅ = (∅, Returned None))
  /\ (forall E, updateUser E defaultOptions userUpdates ∅
                = ({[ "user:1" := EHash {[ "id" := "1"; "name" := "B" ]} ]},
                   Returned userUpdates))
  /\ (forall E, updateSession E defaultOptions sessionUpdates ∅
                = (∅, Returned None)).
Proof.
  intros userUpdates sessionUpdates.
  repeat split; intros E; reflexivity.
Qed.

(** C6, amended.  When the session is there, [updateSession] does what
    [updateUser] does: it lays the supplied fields over the record read
    (a supplied field wins, the other fields stay) and writes the merge.
    When there is no prior record the two differ: [updateUser] writes the
    update as the record, [updateSession] returns [null] and writes
    nothing. *)
Theorem updateSession_merge_policy (E : Engine) (options : IORedisAdapterOptions)
    (userUpdates sessionUpdates : object) (U sessionToken : string)
    (s : store) (storedUser storedSession : option object) :
  Js.prop userUpdates "id" = VString U ->
  validDates userUpdates = true ->
  Js.prop sessionUpdates "sessionToken" = VString sessionToken ->
  validDates sessionUpdates = true ->
  getUser E options U s = (s, Returned storedUser) ->
  getSession E options sessionToken s = (s, Returned storedSession) ->
  (let merged := spread (default ∅ storedUser) userUpdates in
   updateUser E options userUpdates s
   = (userWritten E options U merged s, Returned merged))
  /\ match storedSession with
     | Some session =>
         let merged := spread session sessionUpdates in
         updateSession E options sessionUpdates s
         = (sessionWritten E options sessionToken merged s, Returned (Some merged))
         /\ (forall f v, sessionUpdates !! f = Some v -> merged !! f = Some v)
         /\ (forall f, sessionUpdates !! f = None -> merged !! f = session !! f)
     | None =>
         updateSession E options sessionUpdates s = (s, Returned None)
     end.
Proof.
  intros Hid Hv Htok Hsv Hu Hs. split.
  - apply updateUser_run; assumption.
  - destruct storedSession as [session|].
    + split; [apply updateSession_found; assumption|].
      split; [intros f v; apply spread_lookup_l|intros f; apply spread_lookup_r].
    + eapply updateSession_not_found; eassumption.
Qed.

Lemma updateSession_merge_policy_witness :
  let userUpdates : object := {[ "id" := VString "1"; "name" := VString "B" ]} in
  let sessionUpdates : object :=
    {[ "sessionToken" := VString "tok"; "expires" := VDate (Some 1800000000000%Z) ]} in
  let s := (createSession utcEngine defaultOptions exampleSession ∅).1 in
  let session := spread exampleSession {[ "id" := VString "tok" ]} in
  getUser utcEngine defaultOptions "1" s = (s, Returned None)
  /\ getSession utcEngine defaultOptions "tok" s = (s, Returned (Some session))
  /\ updateUser utcEngine defaultOptions userUpdates s
     = (userWritten utcEngine defaultOptions "1" (spread ∅ userUpdates) s,
        Returned (spread ∅ userUpdates))
  /\ updateSession utcEngine defaultOptions sessionUpdates s
     = (sessionWritten utcEngine defaultOptions "tok"
          (spread session sessionUpdates) s,
        Returned (Some (spread session sessionUpdates))).
Proof.
  intros userUpdates sessionUpdates s session.
  assert (Hu : getUser utcEngine defaultOptions "1" s = (s, Returned None))
    by reflexivity.
  assert (Hs : getSession utcEngine defaultOptions "tok" s
               = (s, Returned (Some session)))
    by reflexivity.
  split; [exact Hu|]. split; [exact Hs|].
  destruct (updateSession_merge_policy utcEngine defaultOptions userUpdates
              sessionUpdates "1" "tok" s None (Some session)
              eq_refl eq_refl eq_refl eq_refl Hu Hs)
    as (H1 & H2 & _).
  split; [exact H1|exact H2].
Defined.

(** C7.  After [createUser] on a record with an email, with [uuid] the id
    assigned, [getUserByEmail] with that email returns the record
    [getUser uuid] returns. *)
Theorem createUser_email_index (E : Engine) (options : IORedisAdapterOptions)
    (uuid e : string) (user : object) (s : store) :
  Js.prop user "email" = VString e -> e <> "" ->
  validDates user = true ->
  uuid <> "" ->
  getUserKey options uuid <> getUserByEmailKey options e ->
  notString s (getUserKey options uuid) = true ->
  exists (s' : store) (created found : object),
    createUser E options uuid user s = (s', Returned created)
    /\ created !! "id" = Some (VString uuid)
    /\ s' !! getUserByEmailKey options e = Some (EString uuid)
    /\ getUser E options uuid s' = (s', Returned (Some found))
    /\ getUserByEmail E options e s' = (s', Returned (Some found)).
Proof.
  intros Hemail He Hv Huuid Hne Hk.
  set (created := spread user {[ "id" := VString uuid ]}).
  assert (Hcv : validDates created = true)
    by (apply validDates_spread; [assumption|apply validDates_singleton; reflexivity]).
  assert (Hcn : ownFields created <> ∅) by (eapply spread_own_non_empty;
        [apply lookup_singleton_eq|discriminate]).
  pose proof (setUser_run E options uuid created s Hcv Hcn Hk) as Hrun.
  assert (Hce : Js.prop created "email" = VString e)
    by (unfold created; rewrite get_spread_r by reflexivity; exact Hemail).
  assert (Hne' : getUserKey options uuid
                 <> getUserByEmailKey options (ToString E (Js.prop created "email")))
    by (rewrite Hce; exact Hne).
  pose proof (userWritten_read E options uuid created s Hne' Hcn) as Hread.
  set (s' := userWritten E options uuid created s) in *.
  assert (Hp : s' !! getUserByEmailKey options e = Some (EString uuid)).
  { unfold s', userWritten. rewrite Hce. cbn [truthy ToString].
    destruct (String.eqb_spec e ""); [contradiction|]. cbn [negb].
    apply lookup_insert_eq. }
  exists s', created. eexists.
  split; [exact Hrun|]. split; [apply spread_lookup_l, lookup_singleton_eq|].
  split; [exact Hp|]. split; [exact Hread|].
  unfold getUserByEmail. rewrite (bind_returned _ _ _ _ _ (get_string _ _ _ Hp)).
  destruct uuid; [congruence|]. exact Hread.
Qed.

Lemma createUser_email_index_witness :
  isUuid exampleId = true
  /\ exists (s' : store) (created found : object),
    createUser utcEngine defaultOptions exampleId exampleUser ∅
    = (s', Returned created)
    /\ created !! "id" = Some (VString exampleId)
    /\ s' !! getUserByEmailKey defaultOptions "a@x.com" = Some (EString exampleId)
    /\ getUser utcEngine defaultOptions exampleId s' = (s', Returned (Some found))
    /\ getUserByEmail utcEngine defaultOptions "a@x.com" s'
       = (s', Returned (Some found)).
Proof.
  assert (Hid : isUuid exampleId = true) by reflexivity.
  split; [exact Hid|].
  apply (createUser_email_index utcEngine defaultOptions exampleId "a@x.com"
           exampleUser ∅ eq_refl ltac:(discriminate) eq_refl
           ltac:(discriminate) (uuid_key_not_email_key "" _ _ Hid) eq_refl).
Defined.

(** C8: the delete functions called twice on a store that holds a user, its
    account, its session and a verification token.  [deleteSession],
    [deleteVerificationToken] and [deleteUser] delete at the first call and
    find nothing at the second.  [unlinkAccount] throws at both calls, and
    the account is there after each. *)
Theorem delete_functions_called_twice (E : Engine) :
  let s := exampleStore E in
  let linked := spread exampleAccount {[ "id" := VString "github:42" ]} in
  let first := unlinkAccount E defaultOptions "42" "github" s in
  let second := unlinkAccount E defaultOptions "42" "github" first.1 in
  (first = (s, Thrown ReplyError_wrong_arity)
   /\ second = (s, Thrown ReplyError_wrong_arity)
   /\ getAccount E defaultOptions "github:42" second.1
      = (s, Returned (Some linked)))
  /\ (let s1 := (deleteSession E defaultOptions "tok" s).1 in
      deleteSession E defaultOptions "tok" s = (s1, Returned VUndefined)
      /\ deleteSession E defaultOptions "tok" s1 = (s1, Returned VNull))
  /\ (let s1 := (deleteVerificationToken defaultOptions "a@x.com" s).1 in
      deleteVerificationToken defaultOptions "a@x.com" s = (s1, Returned tt)
      /\ deleteVerificationToken defaultOptions "a@x.com" s1 = (s1, Returned tt))
  /\ (let s1 := (deleteUser E defaultOptions exampleId s).1 in
      deleteUser E defaultOptions exampleId s = (s1, Returned VUndefined)
      /\ deleteUser E defaultOptions exampleId s1 = (s1, Returned VNull)).
Proof.
  intros s linked first second.
  assert (Hget : getAccount E defaultOptions "github:42" s
                 = (s, Returned (Some linked))) by reflexivity.
  assert (H1 : first = (s, Thrown ReplyError_wrong_arity))
    by exact (unlinkAccount_found E defaultOptions "42" "github" s linked Hget).
  assert (H2 : second = (s, Thrown ReplyError_wrong_arity))
    by (unfold second; rewrite H1; exact H1).
  split; [split; [exact H1|]; split; [exact H2|]; rewrite H2; exact Hget|].
  split; [|split].
  - intros s1.
    assert (Hd : deleteSession E defaultOptions "tok" s = (s1, Returned VUndefined))
      by reflexivity.
    split; [exact Hd|]. exact (deleteSession_twice _ _ _ _ _ _ Hd).
  - intros s1.
    destruct (deleteVerificationToken_twice defaultOptions "a@x.com" s)
      as (s1' & Hd1 & Hd2).
    assert (Hs : s1 = s1') by (unfold s1; rewrite Hd1; reflexivity).
    rewrite Hs. split; assumption.
  - intros s1.
    assert (Hd : deleteUser E defaultOptions exampleId s = (s1, Returned VUndefined))
      by reflexivity.
    split; [exact Hd|]. exact (deleteUser_twice _ _ _ _ _ _ Hd).
Qed.

(** C9, as stated, fails: a plain string that has the shape of an ISO date
    is read back as a [Date], whatever the engine. *)
Lemma plain_string_read_back_as_date :
  let record : object := {[ "name" := VString "2020-01-01T00:00:00.000Z" ]} in
  let s' : store :=
    {[ "user:1" := EHash {[ "name" := "2020-01-01T00:00:00.000Z" ]} ]} in
  (forall E, setObjectAsHash E "user:1" record ∅ = (s', Returned tt))
  /\ (forall E, loadObjectFromHash E "user:1" s'
                = (s', Returned (Some {[ "name" := VDate (Some 1577836800000%Z) ]}))).
Proof.
  intros record s'. split; intros E; reflexivity.
Qed.

(** C9, amended.  A plain string field is read back unchanged as a string
    unless [isDate] takes it for a date (it is not empty, [isoDateRE]
    matches in it and [Date.parse] reads it), and then it is read back as
    the [Date] of the instant [Date.parse] reads; in particular a string in
    which [isoDateRE] does not match is always read back unchanged.  A
    timestamp field is stored as its one [toISOString] text and is read
    back as the same instant.  The fields are those the codec copies:
    every field but one named [__proto__]. *)
Theorem hash_codec_field_types (E : Engine) (key : string) (record : object)
    (s : store) :
  validDates record = true -> ownFields record <> ∅ ->
  notString s key = true ->
  exists (s' : store) (decoded : object),
    setObjectAsHash E key record s = (s', Returned tt)
    /\ loadObjectFromHash E key s' = (s', Returned (Some decoded))
    /\ (forall f str, f <> "__proto__" -> record !! f = Some (VString str) ->
          isDate E str = false -> decoded !! f = Some (VString str))
    /\ (forall f str, f <> "__proto__" -> record !! f = Some (VString str) ->
          isDate E str = true ->
          exists t, Date_parse E str = Some t
                    /\ decoded !! f = Some (VDate (Some t)))
    /\ (forall f str, f <> "__proto__" -> record !! f = Some (VString str) ->
          test isoDateRE str = false -> decoded !! f = Some (VString str))
    /\ (forall f t, f <> "__proto__" -> record !! f = Some (VDate (Some t)) ->
          hashAt s' key !! f = Some (toISOString t)
          /\ decoded !! f = Some (VDate (Some t))).
Proof.
  intros Hv Hne Hk.
  destruct (set_then_load E key record s Hv Hne Hk) as (Hset & Hload & Hh).
  eexists _, _. split; [exact Hset|]. split; [exact Hload|].
  assert (Hfield : forall f v, f <> "__proto__" -> record !! f = Some v ->
            ((fieldText E <$> ownFields record) ∪ hashAt s key) !! f
            = Some (fieldText E v)).
  { intros f v Hp Hf. apply lookup_union_Some_l.
    rewrite lookup_fmap, ownFields_lookup_ne, Hf by exact Hp. reflexivity. }
  assert (Hread : forall f v, f <> "__proto__" -> record !! f = Some v ->
            (decodeValue E
               <$> ownFields ((fieldText E <$> ownFields record) ∪ hashAt s key))
              !! f
            = Some (decodeValue E (fieldText E v))).
  { intros f v Hp Hf.
    rewrite lookup_fmap, ownFields_lookup_ne, (Hfield f v Hp Hf) by exact Hp.
    reflexivity. }
  assert (Hplain : forall f str, f <> "__proto__" ->
            record !! f = Some (VString str) -> isDate E str = false ->
            (decodeValue E
               <$> ownFields ((fieldText E <$> ownFields record) ∪ hashAt s key))
              !! f
            = Some (VString str)).
  { intros f str Hp Hf Hd. rewrite (Hread f _ Hp Hf). cbn. f_equal.
    apply decodeValue_plain, Hd. }
  split; [exact Hplain|]. split; [|split].
  - intros f str Hp Hf Hd. rewrite (Hread f _ Hp Hf). cbn.
    unfold decodeValue. rewrite Hd.
    unfold isDate in Hd. apply andb_true_iff in Hd as [_ Hd].
    apply bool_decide_eq_true in Hd as [t Ht].
    exists t. rewrite Ht. auto.
  - intros f str Hp Hf Ht. apply Hplain; [exact Hp|exact Hf|].
    unfold isDate. rewrite Ht, andb_false_r. reflexivity.
  - intros f t Hp Hf. rewrite Hh.
    assert (Ht : (Z.abs t <= maxTime)%Z).
    { apply Z.leb_le. exact (validDates_lookup record f _ Hv Hf). }
    split; [exact (Hfield f _ Hp Hf)|].
    rewrite (Hread f _ Hp Hf). cbn. f_equal.
    apply decodeValue_toISOString, Ht.
Qed.

Lemma hash_codec_field_types_witness :
  let record : object :=
    {[ "name" := VString "A"; "note" := VString "2020-01-01T00:00:00.000Z";
       "emailVerified" := VDate (Some 1700000000123%Z) ]} in
  validDates record = true /\ ownFields record <> ∅
  /\ notString ∅ "user:1" = true
  /\ exists (s' : store) (decoded : object),
    setObjectAsHash utcEngine "user:1" record ∅ = (s', Returned tt)
    /\ loadObjectFromHash utcEngine "user:1" s' = (s', Returned (Some decoded))
    /\ (forall f str, f <> "__proto__" -> record !! f = Some (VString str) ->
          isDate utcEngine str = false -> decoded !! f = Some (VString str))
    /\ (forall f str, f <> "__proto__" -> record !! f = Some (VString str) ->
          isDate utcEngine str = true ->
          exists t, Date_parse utcEngine str = Some t
                    /\ decoded !! f = Some (VDate (Some t)))
    /\ (forall f str, f <> "__proto__" -> record !! f = Some (VString str) ->
          test isoDateRE str = false -> decoded !! f = Some (VString str))
    /\ (forall f t, f <> "__proto__" -> record !! f = Some (VDate (Some t)) ->
          hashAt s' "user:1" !! f = Some (toISOString t)
          /\ decoded !! f = Some (VDate (Some t))).
Proof.
  intros record.
  assert (H1 : validDates record = true) by reflexivity.
  assert (H2 : ownFields record <> ∅).
  { apply (ownFields_non_empty record "name" (VString "A"));
      [reflexivity|discriminate]. }
  assert (H3 : notString ∅ "user:1" = true) by reflexivity.
  split; [exact H1|]. split; [exact H2|]. split; [exact H3|].
  exact (hash_codec_field_types utcEngine "user:1" record ∅ H1 H2 H3).
Defined.

(** C10.  After [updateUser] changes the email of user [U] from [e1] to
    [e2], the pointer of [e1] is still there and still holds [U]:
    [getUserByEmail e1] returns the user, whose email field is now what
    [e2] reads back as ([e2] itself unless [isDate] takes it for a date). *)
Theorem updateUser_keeps_old_email_pointer (E : Engine)
    (options : IORedisAdapterOptions) (updates user : object)
    (U e1 e2 : string) (s : store) :
  Js.prop updates "id" = VString U ->
  Js.prop updates "email" = VString e2 ->
  validDates updates = true ->
  getUser E options U s = (s, Returned (Some user)) ->
  s !! getUserByEmailKey options e1 = Some (EString U) ->
  e2 <> e1 -> U <> "" ->
  getUserKey options U <> getUserByEmailKey options e2 ->
  exists (s' : store) (returned found : object),
    updateUser E options updates s = (s', Returned returned)
    /\ s' !! getUserByEmailKey options e1 = Some (EString U)
    /\ getUserByEmail E options e1 s' = (s', Returned (Some found))
    /\ getUser E options U s' = (s', Returned (Some found))
    /\ found !! "email" = Some (decodeValue E e2)
    /\ (isDate E e2 = false -> found !! "email" = Some (VString e2)).
Proof.
  intros Hid Hemail Hv Hu Hp1 He HU Hne.
  pose proof (updateUser_run E options updates U s _ Hid Hv Hu) as Hrun.
  cbn [from_option id] in Hrun.
  assert (Hm : ownFields (spread user updates) <> ∅).
  { apply (spread_own_non_empty _ _ "id" (VString U)); [|discriminate].
    apply get_lookup; [exact Hid|discriminate]. }
  assert (He2 : updates !! "email" = Some (VString e2))
    by (eapply get_lookup; [exact Hemail|discriminate]).
  assert (Hne1 : getUserKey options U <> getUserByEmailKey options e1).
  { intros Heq. rewrite getUser_run in Hu.
    apply loadObjectFromHash_found in Hu as (_ & _ & Hh & _).
    rewrite Heq, Hp1 in Hh. discriminate. }
  assert (Hne' : getUserKey options U
                 <> getUserByEmailKey options
                      (ToString E (Js.prop (spread user updates) "email")))
    by (rewrite (get_spread_l _ _ _ _ He2); exact Hne).
  pose proof (userWritten_read E options U _ s Hne' Hm) as Hread.
  set (s' := userWritten E options U (spread user updates) s) in *.
  assert (Hp : s' !! getUserByEmailKey options e1 = Some (EString U)).
  { unfold s', userWritten, hashWritten.
    rewrite (get_spread_l _ _ _ _ He2). cbn [ToString].
    destruct (truthy _).
    - rewrite lookup_insert_ne
        by (intros H; apply getUserByEmailKey_inj in H; contradiction).
      rewrite lookup_insert_ne by exact Hne1. exact Hp1.
    - rewrite lookup_insert_ne by exact Hne1. exact Hp1. }
  assert (Hfound : (decodeValue E
                      <$> ownFields ((fieldText E <$> ownFields (spread user updates))
                                     ∪ hashAt s (getUserKey options U)))
                     !! "email"
                   = Some (decodeValue E e2)).
  { assert (Hp' : "email" <> "__proto__") by discriminate.
    rewrite lookup_fmap, ownFields_lookup_ne by exact Hp'.
    rewrite (merged_field_supplied E _ user updates _ _ Hp' He2).
    reflexivity. }
  exists s', (spread user updates). eexists.
  split; [exact Hrun|]. split; [exact Hp|]. split; [|split; [exact Hread|]].
  - unfold getUserByEmail. rewrite (bind_returned _ _ _ _ _ (get_string _ _ _ Hp)).
    destruct U; [congruence|]. exact Hread.
  - split; [exact Hfound|]. intros Hd. rewrite Hfound.
    rewrite (decodeValue_plain _ _ Hd). reflexivity.
Qed.

Lemma updateUser_keeps_old_email_pointer_witness :
  let s := (createUser utcEngine defaultOptions exampleId exampleUser ∅).1 in
  let user := spread exampleUser {[ "id" := VString exampleId ]} in
  let updates : object :=
    {[ "id" := VString exampleId; "email" := VString "b@x.com" ]} in
  getUser utcEngine defaultOptions exampleId s = (s, Returned (Some user))
  /\ s !! getUserByEmailKey defaultOptions "a@x.com" = Some (EString exampleId)
  /\ exists (s' : store) (returned found : object),
    updateUser utcEngine defaultOptions updates s = (s', Returned returned)
    /\ s' !! getUserByEmailKey defaultOptions "a@x.com" = Some (EString exampleId)
    /\ getUserByEmail utcEngine defaultOptions "a@x.com" s'
       = (s', Returned (Some found))
    /\ getUser utcEngine defaultOptions exampleId s' = (s', Returned (Some found))
    /\ found !! "email" = Some (decodeValue utcEngine "b@x.com")
    /\ (isDate utcEngine "b@x.com" = false ->
        found !! "email" = Some (VString "b@x.com")).
Proof.
  intros s user updates.
  assert (Hu : getUser utcEngine defaultOptions exampleId s
               = (s, Returned (Some user))) by reflexivity.
  assert (Hp : s !! getUserByEmailKey defaultOptions "a@x.com"
               = Some (EString exampleId)) by reflexivity.
  split; [exact Hu|]. split; [exact Hp|].
  apply (updateUser_keeps_old_email_pointer utcEngine defaultOptions updates user
           exampleId "a@x.com" "b@x.com" s eq_refl eq_refl
           eq_refl Hu Hp); discriminate.
Defined.

(** * Further properties of the adapter *)

(** ** What the reads do to the store *)

Lemma get_store key (s : store) : (Redis.get key s).1 = s.
Proof. unfold Redis.get. destruct (s !! key) as [[v|h]|]; reflexivity. Qed.

Lemma bind_store {A B} (m : M A) (f : A -> M B) (s : store) :
  (m s).1 = s -> (forall a, (f a s).1 = s) -> ((m ≫= f) s).1 = s.
Proof.
  intros Hm Hf. rewrite bind_run. destruct (m s) as [s' [a|e]]; cbn in Hm; subst s'.
  - apply Hf.
  - reflexivity.
Qed.

Lemma getUser_store E o id (s : store) : (getUser E o id s).1 = s.
Proof. rewrite getUser_run. apply loadObjectFromHash_store. Qed.

Lemma getAccount_store E o id (s : store) : (getAccount E o id s).1 = s.
Proof. rewrite getAccount_run. apply loadObjectFromHash_store. Qed.

Lemma getSession_store E o id (s : store) : (getSession E o id s).1 = s.
Proof.
  unfold getSession. apply bind_store; [apply loadObjectFromHash_store|].
  intros [x|]; reflexivity.
Qed.

Lemma getVerificationToken_store E o id (s : store) :
  (getVerificationToken E o id s).1 = s.
Proof.
  unfold getVerificationToken. apply bind_store; [apply loadObjectFromHash_store|].
  intros [x|]; reflexivity.
Qed.

(** X1.  The functions that read ([getUser], [getUserByEmail],
    [getUserByAccount], [getSessionAndUser], and [getAccount],
    [getSession], [getVerificationToken] inside the adapter) leave the
    store exactly as it is, whether they return a record, return [null]
    or throw. *)
Theorem reads_leave_the_store_unchanged (E : Engine)
    (options : IORedisAdapterOptions) (s : store) (x y : string) :
  (getUser E options x s).1 = s
  /\ (getUserByEmail E options x s).1 = s
  /\ (getUserByAccount E options x y s).1 = s
  /\ (getSessionAndUser E options x s).1 = s
  /\ (getAccount E options x s).1 = s
  /\ (getSession E options x s).1 = s
  /\ (getVerificationToken E options x s).1 = s.
Proof.
  repeat split.
  - apply getUser_store.
  - unfold getUserByEmail. apply bind_store; [apply get_store|].
    intros [[|c u]|]; try reflexivity. apply getUser_store.
  - unfold getUserByAccount. apply bind_store; [apply getAccount_store|].
    intros [a|]; [apply getUser_store|reflexivity].
  - unfold getSessionAndUser. apply bind_store; [apply getSession_store|].
    intros [session|]; [|reflexivity].
    apply bind_store; [apply getUser_store|]. intros [u|]; reflexivity.
  - apply getAccount_store.
  - apply getSession_store.
  - apply getVerificationToken_store.
Qed.

(** ** Errors and frame of [setObjectAsHash] *)

Lemma reduceEntries_encode_thrown (o : object) e :
  reduceEntries encodeValue o = Thrown e -> e = RangeError_invalid_time.
Proof.
  unfold reduceEntries.
  induction o as [|i x m Hi Hfirst IH] using map_first_key_ind.
  - rewrite map_fold_empty. discriminate.
  - rewrite map_fold_insert_first_key by assumption.
    destruct (map_fold _ _ m) as [acc|e0].
    + destruct x as [| | |[t|]]; cbn; try discriminate. intros [= <-]. reflexivity.
    + destruct (encodeValue x); intros [= <-]; apply IH; reflexivity.
Qed.

Lemma reduceEntries_encode_invalid (o : object) k :
  o !! k = Some (VDate None) ->
  reduceEntries encodeValue o = Thrown RangeError_invalid_time.
Proof.
  destruct (reduceEntries encodeValue o) as [acc|e] eqn:Hr.
  - intros Hk. exfalso. revert acc Hr Hk. unfold reduceEntries.
    induction o as [|i x m Hi Hfirst IH] using map_first_key_ind; intros acc.
    + intros _ Hk. rewrite lookup_empty in Hk. discriminate.
    + rewrite map_fold_insert_first_key by assumption.
      destruct (map_fold _ _ m) as [acc0|e0]; [|destruct (encodeValue x); discriminate].
      destruct (decide (i = k)) as [->|Hne].
      * rewrite lookup_insert_eq. intros Hr [= ->]. discriminate.
      * rewrite lookup_insert_ne by assumption. intros _ Hk.
        exact (IH acc0 eq_refl Hk).
  - intros _. f_equal. exact (reduceEntries_encode_thrown o e Hr).
Qed.

Lemma setObjectAsHash_invalid E key (o : object) (s : store) k :
  o !! k = Some (VDate None) ->
  setObjectAsHash E key o s = (s, Thrown RangeError_invalid_time).
Proof.
  intros Hk. unfold setObjectAsHash.
  rewrite (reduceEntries_encode_invalid o k Hk). reflexivity.
Qed.

(** X2.  A record that holds an invalid [Date] is never written:
    [toISOString] throws a RangeError before any command is sent, so
    [setObjectAsHash], and with it [createUser], [linkAccount],
    [createSession] and [createVerificationToken], throw and leave the
    store as it is (no hash, no pointer). *)
Theorem invalid_date_is_never_written (E : Engine)
    (options : IORedisAdapterOptions) (key uuid field : string)
    (record : object) (s : store) :
  record !! field = Some (VDate None) -> field <> "id" ->
  setObjectAsHash E key record s = (s, Thrown RangeError_invalid_time)
  /\ createUser E options uuid record s = (s, Thrown RangeError_invalid_time)
  /\ linkAccount E options record s = (s, Thrown RangeError_invalid_time)
  /\ createSession E options record s = (s, Thrown RangeError_invalid_time)
  /\ createVerificationToken E options record s
     = (s, Thrown RangeError_invalid_time).
Proof.
  intros Hf Hid.
  assert (Hspread : forall v, spread record {[ "id" := v ]} !! field
                              = Some (VDate None)).
  { intros v. rewrite spread_lookup_r; [exact Hf|].
    apply lookup_singleton_ne. congruence. }
  split; [exact (setObjectAsHash_invalid E key record s field Hf)|].
  split; [|split; [|split]].
  - unfold createUser, setUser. eapply bind_thrown.
    eapply setObjectAsHash_invalid, Hspread.
  - unfold linkAccount, setAccount. eapply bind_thrown.
    eapply setObjectAsHash_invalid, Hspread.
  - unfold createSession, setSession. eapply bind_thrown.
    eapply setObjectAsHash_invalid, Hspread.
  - unfold createVerificationToken, setVerificationToken.
    eapply bind_thrown, bind_thrown.
    eapply setObjectAsHash_invalid, Hf.
Qed.

Lemma invalid_date_is_never_written_witness :
  let record : object :=
    {[ "sessionToken" := VString "tok"; "userId" := VString "1";
       "expires" := VDate None ]} in
  record !! "expires" = Some (VDate None)
  /\ createSession utcEngine defaultOptions record ∅
     = (∅, Thrown RangeError_invalid_time).
Proof.
  intros record.
  assert (H : record !! "expires" = Some (VDate None)) by reflexivity.
  split; [exact H|].
  destruct (invalid_date_is_never_written utcEngine defaultOptions "k" "u"
              "expires" record ∅ H ltac:(discriminate)) as (_ & _ & _ & Hc & _).
  exact Hc.
Defined.

(** X3.  [setObjectAsHash] sets fields and removes none: after it the hash
    holds the text of every field of the record but one named [__proto__],
    which the codec does not copy; a field of the hash that the record does
    not name, or that is named [__proto__], is what it was before; and no
    other key of the store has changed. *)
Theorem setObjectAsHash_sets_fields_and_keeps_the_rest (E : Engine)
    (key : string) (record : object) (s : store) :
  validDates record = true -> ownFields record <> ∅ ->
  notString s key = true ->
  exists s' : store,
    setObjectAsHash E key record s = (s', Returned tt)
    /\ (forall f v, f <> "__proto__" -> record !! f = Some v ->
          hashAt s' key !! f = Some (fieldText E v))
    /\ (forall f, record !! f = None \/ f = "__proto__" ->
          hashAt s' key !! f = hashAt s key !! f)
    /\ (forall k, k <> key -> s' !! k = s !! k).
Proof.
  intros Hv Hne Hk. exists (hashWritten E key record s).
  split; [apply setObjectAsHash_returned; assumption|].
  assert (Hh : hashAt (hashWritten E key record s) key
               = (fieldText E <$> ownFields record) ∪ hashAt s key).
  { unfold hashAt at 1, hashWritten. rewrite lookup_insert_eq. reflexivity. }
  rewrite Hh. split; [|split].
  - intros f v Hp Hf. apply lookup_union_Some_l.
    rewrite lookup_fmap, ownFields_lookup_ne, Hf by exact Hp. reflexivity.
  - intros f Hf. apply lookup_union_r. rewrite lookup_fmap.
    destruct (decide (f = "__proto__")) as [->|Hp].
    + rewrite ownFields_lookup_proto. reflexivity.
    + destruct Hf as [Hf|Hf]; [|contradiction].
      rewrite ownFields_lookup_ne, Hf by exact Hp. reflexivity.
  - intros k Hne'. unfold hashWritten. apply lookup_insert_ne. congruence.
Qed.

Lemma setObjectAsHash_sets_fields_and_keeps_the_rest_witness :
  let s : store :=
    {[ "account:github:42"
       := EHash {[ "provider" := "github"; "refresh_token" := "r1" ]} ]} in
  let record : object :=
    {[ "provider" := VString "github"; "access_token" := VString "a2" ]} in
  exists s' : store,
    setObjectAsHash utcEngine "account:github:42" record s = (s', Returned tt)
    /\ (forall f v, f <> "__proto__" -> record !! f = Some v ->
          hashAt s' "account:github:42" !! f = Some (fieldText utcEngine v))
    /\ (forall f, record !! f = None \/ f = "__proto__" ->
          hashAt s' "account:github:42" !! f = hashAt s "account:github:42" !! f)
    /\ (forall k, k <> "account:github:42" -> s' !! k = s !! k).
Proof.
  intros s record.
  apply (setObjectAsHash_sets_fields_and_keeps_the_rest utcEngine
           "account:github:42" record s eq_refl); [|reflexivity].
  apply (ownFields_non_empty record "provider" (VString "github"));
    [reflexivity|discriminate].
Defined.

(** X4.  Saving a record as it was loaded changes nothing that is read:
    if [loadObjectFromHash] returns a record that has a field,
    [setObjectAsHash] of that record at the same key succeeds and
    [loadObjectFromHash] returns the same record again.  (A hash whose one
    field is named [__proto__] is loaded as a record without fields, which
    [HSET] refuses.) *)
Theorem saving_a_loaded_record_is_stable (E : Engine) (key : string)
    (record : object) (s : store) :
  loadObjectFromHash E key s = (s, Returned (Some record)) ->
  record <> ∅ ->
  exists s' : store,
    setObjectAsHash E key record s = (s', Returned tt)
    /\ loadObjectFromHash E key s' = (s', Returned (Some record)).
Proof.
  intros Hload Hrec.
  apply loadObjectFromHash_found in Hload as (_ & Hne & Hk & ->).
  set (h := hashAt s key) in *.
  assert (Hown : ownFields (decodeValue E <$> ownFields h)
                 = decodeValue E <$> ownFields h)
    by (rewrite ownFields_fmap, ownFields_idemp; reflexivity).
  assert (Hv : validDates (decodeValue E <$> ownFields h) = true)
    by apply validDates_decoded.
  assert (Hn : ownFields (decodeValue E <$> ownFields h) <> ∅)
    by (rewrite Hown; exact Hrec).
  assert (Hs : notString s key = true) by (unfold notString; rewrite Hk; reflexivity).
  destruct (set_then_load E key _ s Hv Hn Hs) as (Hset & Hload & _).
  eexists. split; [exact Hset|]. rewrite Hload. do 3 f_equal.
  fold h. rewrite Hown, ownFields_union, !ownFields_fmap, ownFields_idemp.
  apply map_eq. intros f.
  rewrite !lookup_fmap, lookup_union, !lookup_fmap.
  destruct (ownFields h !! f) as [str|]; cbn; [|reflexivity].
  rewrite decodeValue_fieldText. reflexivity.
Qed.

Lemma saving_a_loaded_record_is_stable_witness :
  let s := (createSession utcEngine defaultOptions exampleSession ∅).1 in
  let record := spread exampleSession {[ "id" := VString "tok" ]} in
  loadObjectFromHash utcEngine "session:tok" s = (s, Returned (Some record))
  /\ exists s' : store,
    setObjectAsHash utcEngine "session:tok" record s = (s', Returned tt)
    /\ loadObjectFromHash utcEngine "session:tok" s' = (s', Returned (Some record)).
Proof.
  intros s record.
  assert (H : loadObjectFromHash utcEngine "session:tok" s
              = (s, Returned (Some record))) by reflexivity.
  split; [exact H|].
  apply (saving_a_loaded_record_is_stable utcEngine "session:tok" record s H).
  eapply spread_non_empty, lookup_singleton_eq.
Defined.

(** ** What [isoDateRE] takes for a date *)

Lemma matchAt_dateHourMinute_T r l k :
  matchAt (dateHourMinute r) l k = true -> existsb isT l = true.
Proof.
  unfold dateHourMinute, d. cbn [seq matchAt].
  do 11 (destruct l as [|? l]; [discriminate || (intros H;
          repeat (apply andb_true_iff in H as [_ H]); discriminate H)|]).
  intros H. do 10 (apply andb_true_iff in H as [_ H]).
  apply andb_true_iff in H as [H _].
  cbn [existsb]. unfold isT at 11. rewrite H. rewrite !orb_true_r. reflexivity.
Qed.

Lemma search_isoDateRE_T l : search isoDateRE l = true -> existsb isT l = true.
Proof.
  induction l as [|c l IH]; cbn [search].
  - rewrite orb_false_r. unfold isoDateRE. cbn [matchAt].
    intros H. repeat apply orb_true_iff in H as [H|H];
      exact (matchAt_dateHourMinute_T _ _ _ H).
  - intros H. apply orb_true_iff in H as [H|H].
    + unfold isoDateRE in H. cbn [matchAt] in H.
      repeat apply orb_true_iff in H as [H|H];
        exact (matchAt_dateHourMinute_T _ _ _ H).
    + cbn [existsb]. rewrite (IH H). apply orb_true_r.
Qed.

Lemma no_T_not_a_date E s : containsT s = false -> isDate E s = false.
Proof.
  intros H. unfold isDate.
  destruct (test isoDateRE s) eqn:Ht.
  - apply search_isoDateRE_T in Ht. unfold containsT in H. congruence.
  - rewrite andb_false_r. reflexivity.
Qed.

(** X5.  A text without the letter [T] is never taken for a date, whatever
    the engine's [Date.parse] accepts: [isDate] is false of it, and a field
    holding it is loaded as the same string, unless the field is named
    [__proto__], which the codec does not copy. *)
Theorem text_without_T_is_read_as_a_string (E : Engine) (key field text : string)
    (s : store) (h : gmap string string) :
  containsT text = false ->
  s !! key = Some (EHash h) -> h !! field = Some text ->
  isDate E text = false
  /\ exists record : object,
       loadObjectFromHash E key s = (s, Returned (Some record))
       /\ (field <> "__proto__" -> record !! field = Some (VString text)).
Proof.
  intros HT Hk Hf. pose proof (no_T_not_a_date E text HT) as Hd.
  split; [exact Hd|].
  assert (Hne : h <> ∅) by (intros ->; rewrite lookup_empty in Hf; discriminate).
  eexists. split; [exact (loadObjectFromHash_hash E key s h Hk Hne)|].
  intros Hp. rewrite lookup_fmap, ownFields_lookup_ne, Hf by exact Hp. cbn.
  rewrite (decodeValue_plain E text Hd). reflexivity.
Qed.

Lemma text_without_T_is_read_as_a_string_witness :
  let h : gmap string string :=
    {[ "identifier" := "a@x.com"; "token" := "9f86d081884c7d65" ]} in
  let s : store := {[ "verification:a@x.com" := EHash h ]} in
  containsT "9f86d081884c7d65" = false
  /\ isDate utcEngine "9f86d081884c7d65" = false
  /\ exists record : object,
       loadObjectFromHash utcEngine "verification:a@x.com" s
       = (s, Returned (Some record))
       /\ ("token" <> "__proto__" ->
           record !! "token" = Some (VString "9f86d081884c7d65")).
Proof.
  intros h s. split; [reflexivity|].
  exact (text_without_T_is_read_as_a_string utcEngine "verification:a@x.com"
           "token" "9f86d081884c7d65" s h eq_refl eq_refl eq_refl).
Defined.

Lemma isHex_not_T c : isHex c = true -> isT c = false.
Proof.
  destruct c as [[] [] [] [] [] [] [] []]; intros H; try reflexivity;
    discriminate H.
Qed.

Lemma uuidGroup_T n : forall l l',
  uuidGroup n l = Some l' -> existsb isT l = existsb isT l'.
Proof.
  induction n as [|n IH]; intros l l'; cbn [uuidGroup].
  - intros [= ->]. reflexivity.
  - destruct l as [|c l]; [discriminate|].
    destruct (isHex c) eqn:Hc; [|discriminate].
    intros H. cbn [existsb]. rewrite (isHex_not_T c Hc). cbn [orb].
    exact (IH _ _ H).
Qed.

Lemma hyphen_T o l' :
  hyphen o = Some l' -> exists l, o = Some l /\ existsb isT l = existsb isT l'.
Proof.
  destruct o as [[|c l]|]; cbn [hyphen]; try discriminate.
  destruct (Ascii.eqb_spec c "-") as [->|_]; [|discriminate].
  intros [= ->]. eauto.
Qed.

Lemma isUuid_no_T U : isUuid U = true -> containsT U = false.
Proof.
  unfold isUuid, containsT.
  destruct (hyphen (uuidGroup 8 _)) as [l1|] eqn:H1; [|discriminate].
  cbn [mbind option_bind].
  destruct (hyphen (uuidGroup 4 l1)) as [l2|] eqn:H2; [|discriminate].
  cbn [mbind option_bind].
  destruct (hyphen (uuidGroup 4 l2)) as [l3|] eqn:H3; [|discriminate].
  cbn [mbind option_bind].
  destruct (hyphen (uuidGroup 4 l3)) as [l4|] eqn:H4; [|discriminate].
  cbn [mbind option_bind].
  destruct (uuidGroup 12 l4) as [[|? ?]|] eqn:H5; try discriminate. intros _.
  apply hyphen_T in H1 as (m1 & G1 & E1). apply uuidGroup_T in G1.
  apply hyphen_T in H2 as (m2 & G2 & E2). apply uuidGroup_T in G2.
  apply hyphen_T in H3 as (m3 & G3 & E3). apply uuidGroup_T in G3.
  apply hyphen_T in H4 as (m4 & G4 & E4). apply uuidGroup_T in G4.
  apply uuidGroup_T in H5.
  rewrite G1, E1, G2, E2, G3, E3, G4, E4, H5. reflexivity.
Qed.

Lemma isUuid_not_a_date E U : isUuid U = true -> decodeValue E U = VString U.
Proof. intros H. apply decodeValue_plain, no_T_not_a_date, isUuid_no_T, H. Qed.

Lemma plus_app p l k k' l' :
  (forall x, k x = true -> k' (x ++ l') = true) ->
  plus p l k = true -> plus p (l ++ l') k' = true.
Proof.
  intros Hk. induction l as [|c l IH]; cbn [plus app]; [discriminate|].
  intros H. apply andb_true_iff in H as [Hc H]. rewrite Hc. cbn [andb].
  apply orb_true_iff in H as [H|H].
  - rewrite (Hk _ H). reflexivity.
  - rewrite (IH H). apply orb_true_r.
Qed.

Lemma matchAt_app r l' : forall l k k',
  (forall x, k x = true -> k' (x ++ l') = true) ->
  matchAt r l k = true -> matchAt r (l ++ l') k' = true.
Proof.
  induction r as [c|p|p|r1 IH1 r2 IH2|r1 IH1 r2 IH2]; intros l k k' Hk;
    cbn [matchAt].
  - destruct l as [|x l]; [discriminate|]. cbn [app].
    intros H. apply andb_true_iff in H as [Hc H]. rewrite Hc, (Hk _ H). reflexivity.
  - destruct l as [|x l]; [discriminate|]. cbn [app].
    intros H. apply andb_true_iff in H as [Hc H]. rewrite Hc, (Hk _ H). reflexivity.
  - apply plus_app, Hk.
  - apply IH1. intros x. apply IH2, Hk.
  - intros H. apply orb_true_iff in H as [H|H].
    + rewrite (IH1 _ _ _ Hk H). reflexivity.
    + rewrite (IH2 _ _ _ Hk H). apply orb_true_r.
Qed.

Lemma search_app_r r l l' : search r l = true -> search r (l ++ l') = true.
Proof.
  induction l as [|c l IH]; cbn [search app].
  - rewrite orb_false_r. intros H.
    assert (Hm : matchAt r ([] ++ l') (fun _ => true) = true)
      by (eapply matchAt_app; [|exact H]; reflexivity).
    cbn [app] in Hm. destruct l'; cbn [search]; rewrite Hm; reflexivity.
  - intros H. apply orb_true_iff in H as [H|H].
    + assert (Hm : matchAt r ((c :: l) ++ l') (fun _ => true) = true)
        by (eapply matchAt_app; [|exact H]; reflexivity).
      cbn [app] in Hm. rewrite Hm. reflexivity.
    + rewrite (IH H). apply orb_true_r.
Qed.

Lemma search_app_l r l0 l : search r l = true -> search r (l0 ++ l) = true.
Proof.
  intros H. induction l0 as [|c l0 IH]; [exact H|].
  cbn [app]. apply search_cons, IH.
Qed.

Lemma list_ascii_of_string_app (a b : string) :
  list_ascii_of_string (a +:+ b)
  = list_ascii_of_string a ++ list_ascii_of_string b.
Proof.
  induction a as [|c a IH]; [reflexivity|].
  rewrite app_cons. cbn [list_ascii_of_string app]. f_equal. exact IH.
Qed.

(** X6.  [isoDateRE] is not anchored: when it matches in a text it matches
    in every text that contains it, whatever stands before and after. *)
Theorem isoDateRE_matches_inside_any_text (before text after : string) :
  test isoDateRE text = true ->
  test isoDateRE (before +:+ text +:+ after) = true.
Proof.
  unfold test. intros H. rewrite !list_ascii_of_string_app.
  apply search_app_l, search_app_r, H.
Qed.

Lemma isoDateRE_matches_inside_any_text_witness :
  test isoDateRE "2020-01-01T10:00Z" = true
  /\ test isoDateRE ("Meeting at " +:+ "2020-01-01T10:00Z" +:+ " in room 2") = true.
Proof.
  assert (H : test isoDateRE "2020-01-01T10:00Z" = true) by reflexivity.
  split; [exact H|].
  exact (isoDateRE_matches_inside_any_text "Meeting at " "2020-01-01T10:00Z"
           " in room 2" H).
Defined.

(** ** Keys *)

(** X7.  Every key function is injective, whatever the options: two
    different identities never get the same key of one kind. *)
Theorem keys_of_different_identities_differ (options : IORedisAdapterOptions)
    (x y : string) :
  x <> y ->
  getUserKey options x <> getUserKey options y
  /\ getUserByEmailKey options x <> getUserByEmailKey options y
  /\ getAccountKey options x <> getAccountKey options y
  /\ getAccountByUserIdKey options x <> getAccountByUserIdKey options y
  /\ getSessionKey options x <> getSessionKey options y
  /\ getSessionByUserIdKey options x <> getSessionByUserIdKey options y
  /\ getVerificationKey options x <> getVerificationKey options y.
Proof.
  intros Hne.
  unfold getUserKey, getUserByEmailKey, getAccountKey, getAccountByUserIdKey,
    getSessionKey, getSessionByUserIdKey, getVerificationKey.
  repeat split; intros H; apply (inj (String.app _)) in H; contradiction.
Qed.

Lemma keys_of_different_identities_differ_witness :
  "tok1" <> "tok2"
  /\ getSessionKey defaultOptions "tok1" <> getSessionKey defaultOptions "tok2".
Proof.
  assert (H : "tok1" <> "tok2") by discriminate.
  split; [exact H|].
  destruct (keys_of_different_identities_differ defaultOptions "tok1" "tok2" H)
    as (_ & _ & _ & _ & Hs & _).
  exact Hs.
Defined.

(** X8.  Under the default prefixes, with any base prefix, the keys of the
    four kinds of entity never coincide: a key of a user or of an email
    pointer, a key of an account or of an account-by-user pointer, a key
    of a session or of a session-by-user pointer, and a key of a
    verification token are pairwise different, whatever the identities. *)
Theorem default_keys_of_different_kinds_differ (base x y : string) :
  let o := withBase base in
  (getUserKey o x <> getAccountKey o y
   /\ getUserKey o x <> getAccountByUserIdKey o y
   /\ getUserKey o x <> getSessionKey o y
   /\ getUserKey o x <> getSessionByUserIdKey o y
   /\ getUserKey o x <> getVerificationKey o y)
  /\ (getUserByEmailKey o x <> getAccountKey o y
      /\ getUserByEmailKey o x <> getAccountByUserIdKey o y
      /\ getUserByEmailKey o x <> getSessionKey o y
      /\ getUserByEmailKey o x <> getSessionByUserIdKey o y
      /\ getUserByEmailKey o x <> getVerificationKey o y)
  /\ (getAccountKey o x <> getSessionKey o y
      /\ getAccountKey o x <> getSessionByUserIdKey o y
      /\ getAccountKey o x <> getVerificationKey o y
      /\ getAccountByUserIdKey o x <> getSessionKey o y
      /\ getAccountByUserIdKey o x <> getSessionByUserIdKey o y
      /\ getAccountByUserIdKey o x <> getVerificationKey o y)
  /\ (getSessionKey o x <> getVerificationKey o y
      /\ getSessionByUserIdKey o x <> getVerificationKey o y).
Proof.
  intros o.
  unfold getUserKey, getUserByEmailKey, getAccountKey, getAccountByUserIdKey,
    getSessionKey, getSessionByUserIdKey, getVerificationKey.
  change (prefixOf o userKeyPrefix) with (base +:+ "user:").
  change (prefixOf o userByEmailKeyPrefix) with (base +:+ "user:email:").
  change (prefixOf o accountKeyPrefix) with (base +:+ "account:").
  change (prefixOf o accountByUserIdPrefix) with (base +:+ "account:user:").
  change (prefixOf o sessionKeyPrefix) with (base +:+ "session:").
  change (prefixOf o sessionByUserIdPrefix) with (base +:+ "session:user:").
  change (prefixOf o verificationKeyPrefix) with (base +:+ "verification:").
  repeat split; apply keys_differ; rewrite !app_cons; discriminate.
Qed.

(** The keys of one kind and of its pointer do overlap. *)
Lemma default_pointer_keys (base u : string) :
  let o := withBase base in
  getUserKey o ("email:" +:+ u) = getUserByEmailKey o u
  /\ getAccountKey o ("user:" +:+ u) = getAccountByUserIdKey o u
  /\ getSessionKey o ("user:" +:+ u) = getSessionByUserIdKey o u.
Proof.
  intros o.
  unfold getUserKey, getUserByEmailKey, getAccountKey, getAccountByUserIdKey,
    getSessionKey, getSessionByUserIdKey.
  change (prefixOf o userKeyPrefix) with (base +:+ "user:").
  change (prefixOf o userByEmailKeyPrefix) with (base +:+ "user:email:").
  change (prefixOf o accountKeyPrefix) with (base +:+ "account:").
  change (prefixOf o accountByUserIdPrefix) with (base +:+ "account:user:").
  change (prefixOf o sessionKeyPrefix) with (base +:+ "session:").
  change (prefixOf o sessionByUserIdPrefix) with (base +:+ "session:user:").
  rewrite (app_assoc base "user:"), (app_assoc base "user:email:"),
    (app_assoc base "account:"), (app_assoc base "account:user:"),
    (app_assoc base "session:"), (app_assoc base "session:user:").
  repeat split; reflexivity.
Qed.

(** X9.  Under the default prefixes a session whose token is ["user:"]
    followed by its own user id has the key of its session-by-user
    pointer: [createSession] succeeds, the pointer is written over the
    hash, and reading the session then throws the server's WRONGTYPE
    error.  The same holds of an account of provider ["user"] whose
    provider account id is its user id. *)
Theorem pointer_written_over_hash (E : Engine) (base u : string)
    (session account : object) (s : store) :
  let o := withBase base in
  Js.prop session "sessionToken" = VString ("user:" +:+ u) ->
  Js.prop session "userId" = VString u ->
  validDates session = true ->
  notString s (getSessionKey o ("user:" +:+ u)) = true ->
  Js.prop account "provider" = VString "user" ->
  Js.prop account "providerAccountId" = VString u ->
  Js.prop account "userId" = VString u ->
  validDates account = true ->
  notString s (getAccountKey o ("user:" +:+ u)) = true ->
  (exists (s' : store) (created : object),
      createSession E o session s = (s', Returned created)
      /\ s' !! getSessionKey o ("user:" +:+ u)
         = Some (EString (getSessionKey o ("user:" +:+ u)))
      /\ getSession E o ("user:" +:+ u) s' = (s', Thrown ReplyError_WRONGTYPE))
  /\ (exists (s' : store) (linked : object),
        linkAccount E o account s = (s', Returned linked)
        /\ s' !! getAccountKey o ("user:" +:+ u)
           = Some (EString (getAccountKey o ("user:" +:+ u)))
        /\ getUserByAccount E o u "user" s'
           = (s', Thrown ReplyError_WRONGTYPE)).
Proof.
  intros o Htok HsU Hsv Hsk Hp Hpa HaU Hav Hak.
  destruct (default_pointer_keys base u) as (_ & Ha & Hs). fold o in Ha, Hs.
  split.
  - set (created := spread session {[ "id" := VString ("user:" +:+ u) ]}).
    assert (Hcv : validDates created = true)
      by (apply validDates_spread; [assumption|apply validDates_singleton; reflexivity]).
    assert (Hcn : ownFields created <> ∅) by (eapply spread_own_non_empty;
        [apply lookup_singleton_eq|discriminate]).
    assert (HcU : Js.prop created "userId" = VString u)
      by (unfold created; rewrite get_spread_r by reflexivity; exact HsU).
    pose proof (setSession_run E o ("user:" +:+ u) created s Hcv Hcn Hsk) as Hrun.
    exists (sessionWritten E o ("user:" +:+ u) created s), created.
    assert (Hl : sessionWritten E o ("user:" +:+ u) created s
                 !! getSessionKey o ("user:" +:+ u)
                 = Some (EString (getSessionKey o ("user:" +:+ u)))).
    { unfold sessionWritten. rewrite HcU. cbn [ToString]. rewrite <- Hs.
      apply lookup_insert_eq. }
    split; [|split; [exact Hl|]].
    + unfold createSession. rewrite Htok. cbn [ToString]. exact Hrun.
    + unfold getSession. apply bind_thrown.
      rewrite loadObjectFromHash_run, Hl. reflexivity.
  - set (linked := spread account {[ "id" := VString ("user:" +:+ u) ]}).
    assert (Hcv : validDates linked = true)
      by (apply validDates_spread; [assumption|apply validDates_singleton; reflexivity]).
    assert (Hcn : ownFields linked <> ∅) by (eapply spread_own_non_empty;
        [apply lookup_singleton_eq|discriminate]).
    assert (HcU : Js.prop linked "userId" = VString u)
      by (unfold linked; rewrite get_spread_r by reflexivity; exact HaU).
    pose proof (setAccount_run E o ("user:" +:+ u) linked s Hcv Hcn Hak) as Hrun.
    exists (accountWritten E o ("user:" +:+ u) linked s), linked.
    assert (Hl : accountWritten E o ("user:" +:+ u) linked s
                 !! getAccountKey o ("user:" +:+ u)
                 = Some (EString (getAccountKey o ("user:" +:+ u)))).
    { unfold accountWritten. rewrite HcU. cbn [ToString]. rewrite <- Ha.
      apply lookup_insert_eq. }
    split; [|split; [exact Hl|]].
    + unfold linkAccount. rewrite Hp, Hpa. cbn [ToString]. exact Hrun.
    + unfold getUserByAccount. apply bind_thrown.
      rewrite getAccount_run, loadObjectFromHash_run.
      change (getAccountId u "user") with ("user:" +:+ u).
      rewrite Hl. reflexivity.
Qed.

Lemma pointer_written_over_hash_witness :
  let session : object :=
    {[ "sessionToken" := VString "user:1"; "userId" := VString "1";
       "expires" := VDate (Some 1700000000123%Z) ]} in
  let account : object :=
    {[ "provider" := VString "user"; "providerAccountId" := VString "1";
       "userId" := VString "1" ]} in
  let o := withBase "" in
  (exists (s' : store) (created : object),
      createSession utcEngine o session ∅ = (s', Returned created)
      /\ s' !! getSessionKey o ("user:" +:+ "1")
         = Some (EString (getSessionKey o ("user:" +:+ "1")))
      /\ getSession utcEngine o ("user:" +:+ "1") s'
         = (s', Thrown ReplyError_WRONGTYPE))
  /\ (exists (s' : store) (linked : object),
        linkAccount utcEngine o account ∅ = (s', Returned linked)
        /\ s' !! getAccountKey o ("user:" +:+ "1")
           = Some (EString (getAccountKey o ("user:" +:+ "1")))
        /\ getUserByAccount utcEngine o "1" "user" s'
           = (s', Thrown ReplyError_WRONGTYPE)).
Proof.
  intros session account o.
  exact (pointer_written_over_hash utcEngine "" "1" session account ∅
           eq_refl eq_refl eq_refl eq_refl eq_refl eq_refl eq_refl eq_refl eq_refl).
Defined.

Lemma containsColon_cons c s :
  containsColon (String c s) = (c =? ":")%char || containsColon s.
Proof. reflexivity. Qed.

Lemma getAccountId_split : forall provider provider' id id',
  containsColon provider = false -> containsColon provider' = false ->
  provider +:+ ":" +:+ id = provider' +:+ ":" +:+ id' ->
  provider = provider' /\ id = id'.
Proof.
  induction provider as [|c p IH]; intros [|c' p'] id id' Hp Hp'.
  - rewrite !app_nil, !app_cons, !app_nil. intros [= ->]. auto.
  - rewrite containsColon_cons in Hp'. apply orb_false_iff in Hp' as [Hc _].
    rewrite !app_nil, !app_cons. intros [= <- _]. discriminate Hc.
  - rewrite containsColon_cons in Hp. apply orb_false_iff in Hp as [Hc _].
    rewrite !app_nil, !app_cons. intros [= -> _]. discriminate Hc.
  - rewrite containsColon_cons in Hp, Hp'.
    apply orb_false_iff in Hp as [_ Hp]. apply orb_false_iff in Hp' as [_ Hp'].
    rewrite !(app_cons _ _ (":" +:+ _)). intros [= -> H].
    destruct (IH _ _ _ Hp Hp' H) as [-> ->]. auto.
Qed.

(** X10.  [getAccountId] joins the provider and the provider account id
    with a colon.  For providers whose name holds no colon it is injective:
    equal account ids come from equal providers and equal provider account
    ids.  With a colon in the provider it is not: the provider [a:b] with
    the id [c] and the provider [a] with the id [b:c] get the same account
    id. *)
Theorem getAccountId_injective_without_colon
    (provider provider' id id' a b c : string) :
  (containsColon provider = false -> containsColon provider' = false ->
   getAccountId id provider = getAccountId id' provider' ->
   provider = provider' /\ id = id')
  /\ getAccountId c (a +:+ ":" +:+ b) = getAccountId (b +:+ ":" +:+ c) a.
Proof.
  split.
  - apply getAccountId_split.
  - unfold getAccountId. rewrite (app_assoc a). reflexivity.
Qed.

Lemma getAccountId_injective_without_colon_witness :
  containsColon "github" = false
  /\ getAccountId "42" "github" = "github:42"
  /\ getAccountId "c" ("a" +:+ ":" +:+ "b") = getAccountId ("b" +:+ ":" +:+ "c") "a".
Proof.
  destruct (getAccountId_injective_without_colon "github" "github" "42" "42"
              "a" "b" "c") as [H1 H2].
  destruct (H1 eq_refl eq_refl eq_refl) as [_ _].
  split; [reflexivity|]. split; [reflexivity|exact H2].
Defined.

(** ** A record written, then found through its key *)

Lemma decodeValue_text E (U : string) :
  isDate E U = false -> decodeValue E (fieldText E (VString U)) = VString U.
Proof. intros H. cbn. apply decodeValue_plain, H. Qed.

Lemma prop_lookup (o : object) k v : o !! k = Some v -> Js.prop o k = v.
Proof. unfold Js.prop. intros ->. reflexivity. Qed.

Lemma written_lookup E (h : gmap string string) (record : object) f v :
  record !! f = Some v -> f <> "__proto__" ->
  (decodeValue E <$> ownFields ((fieldText E <$> ownFields record) ∪ h)) !! f
  = Some (decodeValue E (fieldText E v)).
Proof.
  intros Hf Hp. rewrite lookup_fmap, ownFields_lookup_ne by exact Hp.
  erewrite lookup_union_Some_l; [reflexivity|].
  rewrite lookup_fmap, ownFields_lookup_ne, Hf by exact Hp. reflexivity.
Qed.

Lemma written_non_empty E (h : gmap string string) (record : object) :
  ownFields record <> ∅ -> (fieldText E <$> ownFields record) ∪ h <> ∅.
Proof.
  intros Hne He. apply map_positive_l in He. apply fmap_empty_inv in He.
  contradiction.
Qed.

(** The hash written with its pointer beside it is read back, when the
    pointer has a key of its own. *)
Lemma pointed_hash_read E key pointer target (record : object) (s : store) :
  key <> pointer -> ownFields record <> ∅ ->
  let s' := <[pointer := EString target]> (hashWritten E key record s) in
  loadObjectFromHash E key s'
  = (s', Returned (Some (decodeValue E
                           <$> ownFields ((fieldText E <$> ownFields record)
                                          ∪ hashAt s key)))).
Proof.
  intros Hne Hrec s'. apply loadObjectFromHash_hash.
  - unfold s', hashWritten. rewrite lookup_insert_ne by congruence.
    apply lookup_insert_eq.
  - apply written_non_empty, Hrec.
Qed.

Lemma pointed_frame E key pointer target (record : object) (s : store) k r :
  k <> key -> k <> pointer ->
  loadObjectFromHash E k s = (s, r) ->
  let s' := <[pointer := EString target]> (hashWritten E key record s) in
  loadObjectFromHash E k s' = (s', r).
Proof.
  intros H1 H2 Hr s'. eapply loadObjectFromHash_frame; [exact Hr|].
  unfold s', hashWritten. rewrite !lookup_insert_ne by congruence. reflexivity.
Qed.

(** X11.  An account linked to user [U] leads to that user: after
    [linkAccount], [getUserByAccount] with the provider and the provider
    account id of the account returns what [getUser U] returns, the user
    when it is stored and [null] when it is not.  The key of the account
    must not be the key of its own by-user pointer, and [U] must not be a
    text [isDate] takes for a date. *)
Theorem linked_account_leads_to_its_user (E : Engine)
    (options : IORedisAdapterOptions) (account : object)
    (provider providerAccountId U : string) (s : store)
    (user : option object) :
  separated options ->
  Js.prop account "provider" = VString provider ->
  Js.prop account "providerAccountId" = VString providerAccountId ->
  Js.prop account "userId" = VString U ->
  validDates account = true ->
  isDate E U = false ->
  let accountId := getAccountId providerAccountId provider in
  notString s (getAccountKey options accountId) = true ->
  getAccountKey options accountId <> getAccountByUserIdKey options U ->
  getUser E options U s = (s, Returned user) ->
  exists (s' : store) (linked : object),
    linkAccount E options account s = (s', Returned linked)
    /\ getUserByAccount E options providerAccountId provider s'
       = (s', Returned user).
Proof.
  intros Hsep Hp Hpa HU Hv HdU accountId Hk Hkp Huser.
  set (linked := spread account {[ "id" := VString accountId ]}).
  assert (Hlv : validDates linked = true)
    by (apply validDates_spread; [assumption|apply validDates_singleton; reflexivity]).
  assert (Hln : ownFields linked <> ∅) by (eapply spread_own_non_empty;
        [apply lookup_singleton_eq|discriminate]).
  assert (HlU : linked !! "userId" = Some (VString U)).
  { unfold linked. rewrite spread_lookup_r by reflexivity.
    apply get_lookup; [exact HU|discriminate]. }
  exists (accountWritten E options accountId linked s), linked. split.
  - unfold linkAccount. rewrite Hp, Hpa. cbn [ToString].
    apply setAccount_run; assumption.
  - unfold accountWritten. rewrite (prop_lookup _ _ _ HlU). cbn [ToString].
    unfold getUserByAccount. fold accountId.
    erewrite bind_returned;
      [|rewrite getAccount_run; apply pointed_hash_read; assumption].
    unfold Js.prop. rewrite (written_lookup E _ _ _ _ HlU) by discriminate.
    cbn [default].
    rewrite (decodeValue_text E U HdU). cbn [ToString].
    rewrite getUser_run in *.
    destruct (Hsep U accountId) as (H1 & _). destruct (Hsep U U) as (_ & H2 & _).
    apply pointed_frame; assumption.
Qed.

Lemma linked_account_leads_to_its_user_witness :
  let s := (createUser utcEngine defaultOptions exampleId exampleUser ∅).1 in
  exists (s' : store) (linked : object),
    linkAccount utcEngine defaultOptions exampleAccount s = (s', Returned linked)
    /\ getUserByAccount utcEngine defaultOptions "42" "github" s'
       = (s', Returned (Some (spread exampleUser {[ "id" := VString exampleId ]}))).
Proof.
  intros s.
  exact (linked_account_leads_to_its_user utcEngine defaultOptions
           exampleAccount "github" "42" exampleId s _
           separated_defaultOptions eq_refl eq_refl eq_refl eq_refl eq_refl
           eq_refl ltac:(discriminate) eq_refl).
Defined.

(** X12.  A session created for user [U] is returned with that user:
    after [createSession] under a token that held nothing,
    [getSessionAndUser] with the token returns the created session, whose
    [expires] is the same instant, together with the user [getUser U]
    returns; it returns [null] when that user is not stored. *)
Theorem created_session_is_returned_with_its_user (E : Engine)
    (options : IORedisAdapterOptions) (session : object)
    (sessionToken U : string) (t : Z) (s : store) (user : option object) :
  separated options ->
  Js.prop session "sessionToken" = VString sessionToken ->
  Js.prop session "userId" = VString U ->
  session !! "expires" = Some (VDate (Some t)) ->
  validDates session = true ->
  isDate E U = false ->
  s !! getSessionKey options sessionToken = None ->
  getSessionKey options sessionToken <> getSessionByUserIdKey options U ->
  getUser E options U s = (s, Returned user) ->
  exists (s' : store) (created found : object),
    createSession E options session s = (s', Returned created)
    /\ getSession E options sessionToken s' = (s', Returned (Some found))
    /\ found !! "expires" = Some (VDate (Some t))
    /\ found !! "userId" = Some (VString U)
    /\ getSessionAndUser E options sessionToken s'
       = (s', Returned (match user with
                        | Some user => Some (found, user)
                        | None => None
                        end)).
Proof.
  intros Hsep Htok HU Hexp Hv HdU Hfresh Hkp Huser.
  set (created := spread session {[ "id" := VString sessionToken ]}).
  assert (Hcv : validDates created = true)
    by (apply validDates_spread; [assumption|apply validDates_singleton; reflexivity]).
  assert (Hcn : ownFields created <> ∅) by (eapply spread_own_non_empty;
        [apply lookup_singleton_eq|discriminate]).
  assert (HcU : created !! "userId" = Some (VString U)).
  { unfold created. rewrite spread_lookup_r by reflexivity.
    apply get_lookup; [exact HU|discriminate]. }
  assert (Hce : created !! "expires" = Some (VDate (Some t))).
  { unfold created. rewrite spread_lookup_r by reflexivity. exact Hexp. }
  assert (Hns : notString s (getSessionKey options sessionToken) = true)
    by (unfold notString; rewrite Hfresh; reflexivity).
  assert (Hh : hashAt s (getSessionKey options sessionToken) = ∅)
    by (unfold hashAt; rewrite Hfresh; reflexivity).
  set (x := decodeValue E
              <$> ownFields ((fieldText E <$> ownFields created)
                             ∪ hashAt s (getSessionKey options sessionToken))).
  set (found := spread {[ "id" := Js.prop x "id" ]} x).
  assert (Hrange : (Z.abs t <= maxTime)%Z).
  { pose proof (validDates_lookup _ _ _ Hv Hexp) as Ht. cbn in Ht.
    apply Z.leb_le, Ht. }
  assert (Hxe : x !! "expires" = Some (VDate (Some t))).
  { unfold x. rewrite (written_lookup E _ _ _ _ Hce) by discriminate.
    cbn [fieldText].
    rewrite decodeValue_toISOString by exact Hrange. reflexivity. }
  assert (HxU : x !! "userId" = Some (VString U)).
  { unfold x. rewrite (written_lookup E _ _ _ _ HcU) by discriminate.
    rewrite (decodeValue_text E U HdU). reflexivity. }
  exists (sessionWritten E options sessionToken created s), created, found.
  assert (Hget : getSession E options sessionToken
                   (sessionWritten E options sessionToken created s)
                 = (sessionWritten E options sessionToken created s,
                    Returned (Some found))).
  { unfold getSession, sessionWritten.
    erewrite bind_returned; [|apply pointed_hash_read;
                               [rewrite (prop_lookup _ _ _ HcU); exact Hkp|exact Hcn]].
    reflexivity. }
  split; [|split; [exact Hget|split; [|split]]].
  - unfold createSession. rewrite Htok. cbn [ToString].
    apply setSession_run; assumption.
  - unfold found. apply spread_lookup_l, Hxe.
  - unfold found. apply spread_lookup_l, HxU.
  - unfold getSessionAndUser. erewrite bind_returned; [|exact Hget].
    assert (HfU : Js.prop found "userId" = VString U)
      by (apply prop_lookup, spread_lookup_l, HxU).
    cbv beta iota. rewrite HfU. cbn [ToString].
    assert (Hu : getUser E options U
                   (sessionWritten E options sessionToken created s)
                 = (sessionWritten E options sessionToken created s,
                    Returned user)).
    { rewrite getUser_run in *. unfold sessionWritten.
      rewrite (prop_lookup _ _ _ HcU). cbn [ToString].
      destruct (Hsep U sessionToken) as (_ & _ & H1 & _).
      destruct (Hsep U U) as (_ & _ & _ & H2 & _).
      apply pointed_frame; assumption. }
    erewrite bind_returned; [|exact Hu].
    destruct user; reflexivity.
Qed.

Lemma created_session_is_returned_with_its_user_witness :
  let s := (createUser utcEngine defaultOptions exampleId exampleUser ∅).1 in
  exists (s' : store) (created found : object),
    createSession utcEngine defaultOptions exampleSession s = (s', Returned created)
    /\ getSession utcEngine defaultOptions "tok" s' = (s', Returned (Some found))
    /\ found !! "expires" = Some (VDate (Some 1700000000123%Z))
    /\ found !! "userId" = Some (VString exampleId)
    /\ getSessionAndUser utcEngine defaultOptions "tok" s'
       = (s', Returned (Some (found,
                              spread exampleUser {[ "id" := VString exampleId ]}))).
Proof.
  intros s.
  exact (created_session_is_returned_with_its_user utcEngine defaultOptions
           exampleSession "tok" exampleId 1700000000123 s (Some _)
           separated_defaultOptions eq_refl eq_refl eq_refl eq_refl eq_refl
           eq_refl ltac:(discriminate) eq_refl).
Defined.

(** ** One pointer for each user *)

Lemma getSessionKey_inj o : Inj (=) (=) (getSessionKey o).
Proof. intros x y H. unfold getSessionKey in H. exact (inj _ _ _ H). Qed.

Lemma getAccountKey_inj o : Inj (=) (=) (getAccountKey o).
Proof. intros x y H. unfold getAccountKey in H. exact (inj _ _ _ H). Qed.

(** X13.  [deleteSession] deletes the session-by-user pointer of the user
    of the session, whatever that pointer names.  When the user has a
    newer session, whose key the pointer holds, deleting the older one
    removes the pointer and leaves the newer session in place, with no
    pointer to it. *)
Theorem deleteSession_removes_the_pointer_to_another_session (E : Engine)
    (options : IORedisAdapterOptions) (older newer U : string)
    (session : object) (h : gmap string string) (s : store) :
  getSession E options older s = (s, Returned (Some session)) ->
  Js.prop session "userId" = VString U ->
  older <> newer ->
  s !! getSessionKey options newer = Some (EHash h) ->
  s !! getSessionByUserIdKey options U
  = Some (EString (getSessionKey options newer)) ->
  exists s' : store,
    deleteSession E options older s = (s', Returned VUndefined)
    /\ s' !! getSessionKey options older = None
    /\ s' !! getSessionByUserIdKey options U = None
    /\ s' !! getSessionKey options newer = Some (EHash h).
Proof.
  intros Hget HU Hne Hnewer Hptr.
  assert (Hk : getSessionKey options newer <> getSessionKey options older)
    by (intros H; apply getSessionKey_inj in H; congruence).
  assert (Hp : getSessionKey options newer <> getSessionByUserIdKey options U)
    by (intros H; rewrite H in Hnewer; congruence).
  exists (delete (getSessionByUserIdKey options U)
            (delete (getSessionKey options older) s)).
  split; [|split; [|split]].
  - unfold deleteSession. rewrite (bind_returned _ _ _ _ _ Hget), HU.
    reflexivity.
  - apply lookup_delete_None. right. apply lookup_delete_eq.
  - apply lookup_delete_eq.
  - rewrite !lookup_delete_ne by congruence. exact Hnewer.
Qed.

Lemma deleteSession_removes_the_pointer_to_another_session_witness :
  let older : object :=
    {[ "sessionToken" := VString "tok1"; "userId" := VString "1";
       "expires" := VDate (Some 1700000000123%Z) ]} in
  let newer : object :=
    {[ "sessionToken" := VString "tok2"; "userId" := VString "1";
       "expires" := VDate (Some 1700000000456%Z) ]} in
  let s1 := (createSession utcEngine defaultOptions older ∅).1 in
  let s := (createSession utcEngine defaultOptions newer s1).1 in
  s !! "session:user:1" = Some (EString "session:tok2")
  /\ exists s' : store,
      deleteSession utcEngine defaultOptions "tok1" s = (s', Returned VUndefined)
      /\ s' !! getSessionKey defaultOptions "tok1" = None
      /\ s' !! getSessionByUserIdKey defaultOptions "1" = None
      /\ s' !! getSessionKey defaultOptions "tok2"
         = Some (EHash (fieldText utcEngine
                          <$> spread newer {[ "id" := VString "tok2" ]})).
Proof.
  intros older newer s1 s.
  split; [reflexivity|].
  exact (deleteSession_removes_the_pointer_to_another_session utcEngine
           defaultOptions "tok1" "tok2" "1"
           (spread older {[ "id" := VString "tok1" ]}) _ s
           eq_refl eq_refl ltac:(discriminate) eq_refl eq_refl).
Defined.

Lemma default_email_key (base e x : string) :
  let o := withBase base in
  getUserByEmailKey o e <> getAccountKey o x
  /\ getUserByEmailKey o e <> getSessionKey o x.
Proof.
  intros o. unfold getUserByEmailKey, getAccountKey, getSessionKey.
  change (prefixOf o userByEmailKeyPrefix) with (base +:+ "user:email:").
  change (prefixOf o accountKeyPrefix) with (base +:+ "account:").
  change (prefixOf o sessionKeyPrefix) with (base +:+ "session:").
  split; apply keys_differ; rewrite !app_cons; discriminate.
Qed.

(** X14.  [deleteUser] deletes one account and one session: those the two
    by-user pointers name.  Under the default prefixes, when user [U] has
    two accounts and two sessions, the pointers hold the keys of the ones
    written last; [deleteUser U] deletes these, and the other account and
    the other session stay in the store. *)
Theorem deleteUser_deletes_only_what_the_pointers_name (E : Engine)
    (base U account account' sessionToken sessionToken' : string)
    (user : object) (ha hs : gmap string string) (s : store) :
  let o := withBase base in
  getUser E o U s = (s, Returned (Some user)) ->
  s !! getAccountByUserIdKey o U = Some (EString (getAccountKey o account')) ->
  s !! getSessionByUserIdKey o U
  = Some (EString (getSessionKey o sessionToken')) ->
  s !! getAccountKey o account = Some (EHash ha) -> account <> account' ->
  s !! getSessionKey o sessionToken = Some (EHash hs) ->
  sessionToken <> sessionToken' ->
  exists s' : store,
    deleteUser E o U s = (s', Returned VUndefined)
    /\ s' !! getAccountKey o account' = None
    /\ s' !! getSessionKey o sessionToken' = None
    /\ s' !! getAccountKey o account = Some (EHash ha)
    /\ s' !! getSessionKey o sessionToken = Some (EHash hs).
Proof.
  intros o Huser Hap Hsp Ha Hane Hs Hsne.
  pose proof (separated_withBase base) as Hsep. fold o in Hsep.
  pose proof (deleteUser_run E o U user s _ _ Huser
                (get_string _ _ _ Hap) (get_string _ _ _ Hsp)) as Hrun.
  assert (Hak : getAccountKey o account' <> "").
  { unfold getAccountKey.
    change (prefixOf o accountKeyPrefix) with (base +:+ "account:").
    apply key_not_empty. destruct base; rewrite ?app_nil, ?app_cons; discriminate. }
  assert (Hsk : getSessionKey o sessionToken' <> "")
    by (apply key_not_empty, separated_session_prefix, Hsep).
  rewrite (delPointed_key _ _ Hak), (delPointed_key _ _ Hsk) in Hrun.
  eexists. split; [exact Hrun|].
  set (e := ToString E (Js.prop user "email")).
  destruct (default_email_key base e account) as (He1 & _).
  destruct (default_email_key base e sessionToken) as (_ & He2).
  fold o in He1, He2.
  destruct (Hsep U account) as (Hu1 & _ & Hu2 & _).
  destruct (Hsep U sessionToken) as (_ & _ & Hu3 & _).
  destruct (Hsep account sessionToken') as (_ & _ & _ & _ & Hx1 & _).
  destruct (Hsep account U) as (_ & _ & _ & _ & _ & Hx2 & _).
  destruct (Hsep account' sessionToken) as (_ & _ & _ & _ & Hx3 & _).
  destruct (Hsep U sessionToken) as (_ & _ & _ & _ & _ & _ & Hx4 & _).
  assert (Hp1 : getAccountKey o account <> getAccountByUserIdKey o U)
    by (intros H; rewrite H in Ha; congruence).
  assert (Hp2 : getSessionKey o sessionToken <> getSessionByUserIdKey o U)
    by (intros H; rewrite H in Hs; congruence).
  assert (Hi1 : getAccountKey o account <> getAccountKey o account')
    by (intros H; apply getAccountKey_inj in H; congruence).
  assert (Hi2 : getSessionKey o sessionToken <> getSessionKey o sessionToken')
    by (intros H; apply getSessionKey_inj in H; congruence).
  split; [|split; [|split]].
  - apply lookup_delete_None. right. apply lookup_delete_eq.
  - apply lookup_delete_None. right. apply lookup_delete_None. right.
    apply lookup_delete_eq.
  - rewrite !lookup_delete_ne by congruence. exact Ha.
  - rewrite !lookup_delete_ne by congruence. exact Hs.
Qed.

Lemma deleteUser_deletes_only_what_the_pointers_name_witness :
  let o := withBase "" in
  let s : store :=
    {[ "user:1" := EHash {[ "id" := "1"; "email" := "a@x.com" ]};
       "user:email:a@x.com" := EString "1";
       "account:github:42" := EHash {[ "userId" := "1" ]};
       "account:google:7" := EHash {[ "userId" := "1" ]};
       "account:user:1" := EString "account:google:7";
       "session:tok1" := EHash {[ "userId" := "1" ]};
       "session:tok2" := EHash {[ "userId" := "1" ]};
       "session:user:1" := EString "session:tok2" ]} in
  exists s' : store,
    deleteUser utcEngine o "1" s = (s', Returned VUndefined)
    /\ s' !! getAccountKey o "google:7" = None
    /\ s' !! getSessionKey o "tok2" = None
    /\ s' !! getAccountKey o "github:42" = Some (EHash {[ "userId" := "1" ]})
    /\ s' !! getSessionKey o "tok1" = Some (EHash {[ "userId" := "1" ]}).
Proof.
  intros o s.
  exact (deleteUser_deletes_only_what_the_pointers_name utcEngine ""
           "1" "github:42" "google:7" "tok1" "tok2"
           {[ "id" := VString "1"; "email" := VString "a@x.com" ]} _ _ s
           eq_refl eq_refl eq_refl eq_refl ltac:(discriminate)
           eq_refl ltac:(discriminate)).
Defined.

(** ** Verification tokens *)

(** X15.  A verification token created under an identifier that held
    nothing is redeemed by presenting the same identifier and token:
    [useVerificationToken] returns the record, with the same [expires]
    instant, and the store is again what it was before the token was
    created.  This needs the token text to be read back as a string: a
    token [isDate] takes for a date is read back as a [Date], is equal to
    no presented token, and is never redeemed. *)
Theorem created_token_is_redeemed (E : Engine)
    (options : IORedisAdapterOptions) (verificationToken presented : object)
    (identifier token : string) (t : Z) (s : store) :
  Js.prop verificationToken "identifier" = VString identifier ->
  Js.prop verificationToken "token" = VString token ->
  verificationToken !! "expires" = Some (VDate (Some t)) ->
  validDates verificationToken = true ->
  Js.prop presented "identifier" = VString identifier ->
  Js.prop presented "token" = VString token ->
  s !! getVerificationKey options identifier = None ->
  exists s' : store,
    createVerificationToken E options verificationToken s
    = (s', Returned verificationToken)
    /\ if isDate E token
       then useVerificationToken E options presented s' = (s', Returned None)
       else exists used : object,
           useVerificationToken E options presented s'
           = (s, Returned (Some used))
           /\ used !! "token" = Some (VString token)
           /\ used !! "expires" = Some (VDate (Some t)).
Proof.
  intros Hid Htok Hexp Hv Hpid Hptok Hfresh.
  set (key := getVerificationKey options identifier) in *.
  assert (Hn : ownFields verificationToken <> ∅)
    by (apply (ownFields_non_empty _ _ _ Hexp); discriminate).
  assert (Hns : notString s key = true)
    by (unfold notString; rewrite Hfresh; reflexivity).
  assert (Hh : hashAt s key = ∅) by (unfold hashAt; rewrite Hfresh; reflexivity).
  destruct (set_then_load E key verificationToken s Hv Hn Hns)
    as (Hset & Hload & _).
  rewrite Hh in Hload.
  set (s' := hashWritten E key verificationToken s) in *.
  set (x := decodeValue E
              <$> ownFields ((fieldText E <$> ownFields verificationToken) ∪ ∅))
    in *.
  set (used := spread {[ "identifier" := Js.prop x "identifier" ]} x).
  assert (Hrange : (Z.abs t <= maxTime)%Z).
  { pose proof (validDates_lookup _ _ _ Hv Hexp) as Ht. cbn in Ht.
    apply Z.leb_le, Ht. }
  assert (Htl : verificationToken !! "token" = Some (VString token))
    by (apply get_lookup; [exact Htok|discriminate]).
  assert (Hxt : x !! "token" = Some (decodeValue E token))
    by (unfold x; rewrite (written_lookup E _ _ _ _ Htl) by discriminate;
        reflexivity).
  assert (Hxe : x !! "expires" = Some (VDate (Some t))).
  { unfold x. rewrite (written_lookup E _ _ _ _ Hexp) by discriminate.
    cbn [fieldText].
    rewrite decodeValue_toISOString by exact Hrange. reflexivity. }
  assert (Hget : getVerificationToken E options identifier s'
                 = (s', Returned (Some used))).
  { unfold getVerificationToken. fold key.
    rewrite (bind_returned _ _ _ _ _ Hload). reflexivity. }
  assert (Hut : Js.prop used "token" = decodeValue E token)
    by (apply prop_lookup, spread_lookup_l, Hxt).
  exists s'. split.
  - assert (Hsv : setVerificationToken E options identifier verificationToken s
                  = (s', Returned verificationToken)).
    { unfold setVerificationToken. fold key.
      rewrite (bind_returned _ _ _ _ _ Hset). reflexivity. }
    unfold createVerificationToken. rewrite Hid. cbn [ToString].
    rewrite (bind_returned _ _ _ _ _ Hsv). reflexivity.
  - unfold useVerificationToken. rewrite Hpid. cbn [ToString].
    rewrite (bind_returned _ _ _ _ _ Hget), Hptok, Hut.
    unfold decodeValue. destruct (isDate E token) eqn:Hd.
    + reflexivity.
    + exists used. cbn [strictEq]. rewrite String.eqb_refl. cbn [negb].
      split; [|split].
      * unfold deleteVerificationToken. fold key. mrun. unfold s', hashWritten.
        rewrite delete_insert_eq, delete_id by exact Hfresh. reflexivity.
      * unfold used. erewrite spread_lookup_l; [|exact Hxt].
        rewrite decodeValue_plain by exact Hd. reflexivity.
      * unfold used. apply spread_lookup_l, Hxe.
Qed.

Lemma created_token_is_redeemed_witness :
  let presented : object :=
    {[ "identifier" := VString "a@x.com"; "token" := VString "secret" ]} in
  exists s' : store,
    createVerificationToken utcEngine defaultOptions exampleToken ∅
    = (s', Returned exampleToken)
    /\ exists used : object,
        useVerificationToken utcEngine defaultOptions presented s'
        = (∅, Returned (Some used))
        /\ used !! "token" = Some (VString "secret")
        /\ used !! "expires" = Some (VDate (Some 1700000000123%Z)).
Proof.
  intros presented.
  exact (created_token_is_redeemed utcEngine defaultOptions exampleToken
           presented "a@x.com" "secret" 1700000000123 ∅
           eq_refl eq_refl eq_refl eq_refl eq_refl eq_refl eq_refl).
Defined.

(** ** What [deleteUser] leaves behind *)

Lemma default_email_key_pointers (base e x : string) :
  let o := withBase base in
  getUserByEmailKey o e <> getAccountByUserIdKey o x
  /\ getUserByEmailKey o e <> getSessionByUserIdKey o x.
Proof.
  intros o.
  unfold getUserByEmailKey, getAccountByUserIdKey, getSessionByUserIdKey.
  change (prefixOf o userByEmailKeyPrefix) with (base +:+ "user:email:").
  change (prefixOf o accountByUserIdPrefix) with (base +:+ "account:user:").
  change (prefixOf o sessionByUserIdPrefix) with (base +:+ "session:user:").
  split; apply keys_differ; rewrite !app_cons; discriminate.
Qed.

Lemma delPointed_lookup (key : option string) k (s : store) :
  key <> Some k -> delPointed key s !! k = s !! k.
Proof.
  intros Hne. destruct key as [[|c key]|]; try reflexivity.
  cbn. apply lookup_delete_ne. congruence.
Qed.

(** X16.  [deleteUser] deletes the pointer of the email the user record
    holds, and no other.  Under the default prefixes, when the email of
    user [U] was changed and the pointer of the former email still holds
    [U], that pointer is still there after [deleteUser U]; it then names
    no user, and [getUserByEmail] with the former email returns [null]. *)
Theorem deleteUser_leaves_the_pointer_of_a_former_email (E : Engine)
    (base U former : string) (user : object) (s : store)
    (accountKey sessionKey : option string) :
  let o := withBase base in
  isUuid U = true ->
  getUser E o U s = (s, Returned (Some user)) ->
  s !! getUserByEmailKey o former = Some (EString U) ->
  ToString E (Js.prop user "email") <> former ->
  Redis.get (getAccountByUserIdKey o U) s = (s, Returned accountKey) ->
  Redis.get (getSessionByUserIdKey o U) s = (s, Returned sessionKey) ->
  accountKey <> Some (getUserByEmailKey o former) ->
  sessionKey <> Some (getUserByEmailKey o former) ->
  exists s' : store,
    deleteUser E o U s = (s', Returned VUndefined)
    /\ s' !! getUserByEmailKey o former = Some (EString U)
    /\ getUserByEmail E o former s' = (s', Returned None).
Proof.
  intros o HU Huser Hptr Hne Hak Hsk Hak' Hsk'.
  pose proof (deleteUser_run E o U user s _ _ Huser Hak Hsk) as Hrun.
  set (s' := delete (getUserKey o U) _) in Hrun.
  destruct (default_email_key_pointers base former U) as (H1 & H2).
  fold o in H1, H2.
  pose proof (uuid_key_not_email_key base U former HU) as H3. fold o in H3.
  assert (H4 : getUserByEmailKey o (ToString E (Js.prop user "email"))
               <> getUserByEmailKey o former)
    by (intros H; apply getUserByEmailKey_inj in H; contradiction).
  assert (Hl : s' !! getUserByEmailKey o former = Some (EString U)).
  { unfold s'. rewrite lookup_delete_ne by exact H3.
    rewrite !delPointed_lookup by assumption.
    rewrite !lookup_delete_ne by congruence. exact Hptr. }
  exists s'. split; [exact Hrun|split; [exact Hl|]].
  unfold getUserByEmail. rewrite (bind_returned _ _ _ _ _ (get_string _ _ _ Hl)).
  pose proof (isUuid_not_empty U HU) as Hn.
  destruct U as [|c U]; [contradiction|].
  rewrite getUser_run. apply loadObjectFromHash_absent, lookup_delete_eq.
Qed.

Lemma deleteUser_leaves_the_pointer_of_a_former_email_witness :
  let o := withBase "" in
  let s : store :=
    {[ "user:9b2e7c1a-5d3f-4a8b-9c6d-0e1f2a3b4c5d"
         := EHash {[ "id" := exampleId; "email" := "new@x.com" ]};
       "user:email:old@x.com" := EString exampleId;
       "user:email:new@x.com" := EString exampleId ]} in
  exists s' : store,
    deleteUser utcEngine o exampleId s = (s', Returned VUndefined)
    /\ s' !! getUserByEmailKey o "old@x.com" = Some (EString exampleId)
    /\ getUserByEmail utcEngine o "old@x.com" s' = (s', Returned None).
Proof.
  intros o s.
  apply (deleteUser_leaves_the_pointer_of_a_former_email utcEngine ""
           exampleId "old@x.com"
           {[ "id" := VString exampleId; "email" := VString "new@x.com" ]}
           s None None); try reflexivity; discriminate.
Defined.

(** ** The keys a write touches *)

Lemma setObjectAsHash_frame E key (o : object) (s : store) k :
  k <> key -> (setObjectAsHash E key o s).1 !! k = s !! k.
Proof.
  intros Hne. unfold setObjectAsHash.
  destruct (reduceEntries encodeValue o) as [newObject|e]; [|reflexivity].
  unfold hset. destruct (decide (newObject = ∅)); [reflexivity|].
  destruct (s !! key) as [[v|h]|]; cbn;
    rewrite ?lookup_insert_ne by congruence; reflexivity.
Qed.

Lemma pointed_write_frame E key pointer target (o : object) (s : store) k :
  k <> key -> k <> pointer ->
  ((setObjectAsHash E key o;; set pointer target;; mret o) s).1 !! k = s !! k.
Proof.
  intros H1 H2. rewrite bind_run.
  pose proof (setObjectAsHash_frame E key o s k H1) as Hf.
  destruct (setObjectAsHash E key o s) as [s1 [[]|e]]; [|exact Hf].
  mrun. cbn [fst] in Hf |- *.
  rewrite lookup_insert_ne by congruence. exact Hf.
Qed.

(** X17.  A write changes its own keys only, also when it fails:
    [createUser] touches the key of the user and the pointer of its
    email, [linkAccount] the key of the account and the account-by-user
    pointer of its user, [createSession] the key of the session and the
    session-by-user pointer of its user, [createVerificationToken] the
    key of the token.  Every other key of the store holds after the call
    what it held before. *)
Theorem writes_change_their_own_keys_only (E : Engine)
    (options : IORedisAdapterOptions) (uuid k : string) (record : object)
    (s : store) :
  (k <> getUserKey options uuid ->
   k <> getUserByEmailKey options (ToString E (Js.prop record "email")) ->
   (createUser E options uuid record s).1 !! k = s !! k)
  /\ (k <> getAccountKey options
             (getAccountId (ToString E (Js.prop record "providerAccountId"))
                           (ToString E (Js.prop record "provider"))) ->
      k <> getAccountByUserIdKey options (ToString E (Js.prop record "userId")) ->
      (linkAccount E options record s).1 !! k = s !! k)
  /\ (k <> getSessionKey options (ToString E (Js.prop record "sessionToken")) ->
      k <> getSessionByUserIdKey options (ToString E (Js.prop record "userId")) ->
      (createSession E options record s).1 !! k = s !! k)
  /\ (k <> getVerificationKey options (ToString E (Js.prop record "identifier")) ->
      (createVerificationToken E options record s).1 !! k = s !! k).
Proof.
  split; [|split; [|split]].
  - intros H1 H2. unfold createUser, setUser.
    set (user := spread record {[ "id" := VString uuid ]}).
    assert (He : Js.prop user "email" = Js.prop record "email")
      by (apply get_spread_r; reflexivity).
    rewrite He. destruct (truthy (Js.prop record "email")).
    + apply pointed_write_frame; assumption.
    + rewrite bind_run.
      pose proof (setObjectAsHash_frame E _ user s k H1) as Hf.
      destruct (setObjectAsHash E _ user s) as [s1 [[]|e]]; exact Hf.
  - intros H1 H2. unfold linkAccount, setAccount.
    rewrite get_spread_r by reflexivity.
    apply pointed_write_frame; assumption.
  - intros H1 H2. unfold createSession, setSession.
    rewrite get_spread_r by reflexivity.
    apply pointed_write_frame; assumption.
  - intros H1. unfold createVerificationToken, setVerificationToken.
    rewrite !bind_run.
    pose proof (setObjectAsHash_frame E _ record s k H1) as Hf.
    destruct (setObjectAsHash E _ record s) as [s1 [[]|e]]; exact Hf.
Qed.

Lemma writes_change_their_own_keys_only_witness :
  let s := exampleStore utcEngine in
  let other : object :=
    {[ "name" := VString "B"; "email" := VString "b@x.com" ]} in
  (createUser utcEngine defaultOptions "7" other s).1
    !! getUserKey defaultOptions exampleId
  = s !! getUserKey defaultOptions exampleId.
Proof.
  intros s other.
  destruct (writes_change_their_own_keys_only utcEngine defaultOptions "7"
              (getUserKey defaultOptions exampleId) other s) as (H & _).
  apply H; discriminate.
Defined.

(** ** Fields that are not there *)

(** X18.  A field that holds [null] or [undefined] is stored as the empty
    text, which is what the client sends for them, and is read back as
    the empty string: the record read is not the record written.  The
    field has a name other than [__proto__], which the codec does not
    copy. *)
Theorem null_field_is_read_back_as_empty_string (E : Engine) (key field : string)
    (record : object) (v : value) (s : store) :
  validDates record = true -> notString s key = true ->
  field <> "__proto__" ->
  record !! field = Some v -> v = VNull \/ v = VUndefined ->
  exists (s' : store) (decoded : object),
    setObjectAsHash E key record s = (s', Returned tt)
    /\ hashAt s' key !! field = Some ""
    /\ loadObjectFromHash E key s' = (s', Returned (Some decoded))
    /\ decoded !! field = Some (VString "").
Proof.
  intros Hv Hk Hp Hf Hnull.
  assert (Hn : ownFields record <> ∅)
    by exact (ownFields_non_empty _ _ _ Hf Hp).
  destruct (set_then_load E key record s Hv Hn Hk) as (Hset & Hload & Hh).
  assert (Ht : fieldText E v = "") by (destruct Hnull as [-> | ->]; reflexivity).
  eexists _, _. split; [exact Hset|split; [|split; [exact Hload|]]].
  - rewrite Hh. apply lookup_union_Some_l.
    rewrite lookup_fmap, ownFields_lookup_ne, Hf by exact Hp.
    cbn. f_equal. exact Ht.
  - rewrite (written_lookup E _ _ _ _ Hf Hp), Ht. reflexivity.
Qed.

Lemma null_field_is_read_back_as_empty_string_witness :
  let record : object :=
    {[ "id" := VString "1"; "name" := VString "A"; "emailVerified" := VNull ]} in
  exists (s' : store) (decoded : object),
    setObjectAsHash utcEngine "user:1" record ∅ = (s', Returned tt)
    /\ hashAt s' "user:1" !! "emailVerified" = Some ""
    /\ loadObjectFromHash utcEngine "user:1" s' = (s', Returned (Some decoded))
    /\ decoded !! "emailVerified" = Some (VString "").
Proof.
  intros record.
  apply (null_field_is_read_back_as_empty_string utcEngine "user:1"
           "emailVerified" record VNull ∅);
    [reflexivity|reflexivity|discriminate|reflexivity|left; reflexivity].
Defined.

(** ** The base prefix *)

(** X19.  The base prefix is put before every key: with the default
    prefixes under a base prefix, each key is the base prefix followed by
    the key the default options give. *)
Theorem base_prefix_is_put_before_every_key (base x : string) :
  let o := withBase base in
  getUserKey o x = base +:+ getUserKey defaultOptions x
  /\ getUserByEmailKey o x = base +:+ getUserByEmailKey defaultOptions x
  /\ getAccountKey o x = base +:+ getAccountKey defaultOptions x
  /\ getAccountByUserIdKey o x = base +:+ getAccountByUserIdKey defaultOptions x
  /\ getSessionKey o x = base +:+ getSessionKey defaultOptions x
  /\ getSessionByUserIdKey o x = base +:+ getSessionByUserIdKey defaultOptions x
  /\ getVerificationKey o x = base +:+ getVerificationKey defaultOptions x.
Proof.
  intros o.
  unfold getUserKey, getUserByEmailKey, getAccountKey, getAccountByUserIdKey,
    getSessionKey, getSessionByUserIdKey, getVerificationKey.
  change (prefixOf o userKeyPrefix) with (base +:+ "user:").
  change (prefixOf o userByEmailKeyPrefix) with (base +:+ "user:email:").
  change (prefixOf o accountKeyPrefix) with (base +:+ "account:").
  change (prefixOf o accountByUserIdPrefix) with (base +:+ "account:user:").
  change (prefixOf o sessionKeyPrefix) with (base +:+ "session:").
  change (prefixOf o sessionByUserIdPrefix) with (base +:+ "session:user:").
  change (prefixOf o verificationKeyPrefix) with (base +:+ "verification:").
  repeat split; apply app_assoc.
Qed.

(** ** The id of a created user *)

(** X20.  The id [createUser] assigns is read back as it was written: a
    text in the form [uuid()] gives is never taken for a date, so under
    the default prefixes the user read after [createUser] has the
    assigned id as a string in its [id] field, whatever [Date.parse] of
    the engine accepts. *)
Theorem created_user_is_read_with_its_id (E : Engine) (base uuid : string)
    (user : object) (s : store) :
  let o := withBase base in
  isUuid uuid = true ->
  validDates user = true ->
  notString s (getUserKey o uuid) = true ->
  exists (s' : store) (created found : object),
    createUser E o uuid user s = (s', Returned created)
    /\ getUser E o uuid s' = (s', Returned (Some found))
    /\ found !! "id" = Some (VString uuid).
Proof.
  intros o Hu Hv Hk.
  set (created := spread user {[ "id" := VString uuid ]}).
  assert (Hcv : validDates created = true)
    by (apply validDates_spread; [assumption|apply validDates_singleton; reflexivity]).
  assert (Hid : created !! "id" = Some (VString uuid))
    by (apply spread_lookup_l, lookup_singleton_eq).
  assert (Hcn : ownFields created <> ∅) by (eapply spread_own_non_empty;
        [apply lookup_singleton_eq|discriminate]).
  pose proof (uuid_key_not_email_key base uuid
                (ToString E (Js.prop created "email")) Hu) as Hne.
  fold o in Hne.
  eexists _, created, _. split; [|split].
  - unfold createUser. apply setUser_run; assumption.
  - apply userWritten_read; assumption.
  - rewrite (written_lookup E _ _ _ _ Hid) by discriminate.
    cbn [fieldText toArg ToString].
    rewrite (isUuid_not_a_date E uuid Hu). reflexivity.
Qed.

Lemma created_user_is_read_with_its_id_witness :
  exists (s' : store) (created found : object),
    createUser utcEngine (withBase "app:") exampleId exampleUser ∅
    = (s', Returned created)
    /\ getUser utcEngine (withBase "app:") exampleId s'
       = (s', Returned (Some found))
    /\ found !! "id" = Some (VString exampleId).
Proof.
  exact (created_user_is_read_with_its_id utcEngine "app:" exampleId
           exampleUser ∅ eq_refl eq_refl eq_refl).
Defined.

(** ** The name [__proto__] *)

(** X21.  The codec copies its fields by assignment to an object that
    began as [{}], and such an assignment creates no property named
    [__proto__].  So a record whose one field is named [__proto__] is sent
    as [HSET] without a field, which the server refuses, and nothing is
    written; and a hash whose one field is named [__proto__] is found but
    loaded as a record without fields. *)
Theorem proto_field_is_not_copied (E : Engine) (key text : string)
    (v : value) (s : store) :
  (validDate v = true ->
   setObjectAsHash E key {[ "__proto__" := v ]} s
   = (s, Thrown ReplyError_wrong_arity))
  /\ (s !! key = Some (EHash {[ "__proto__" := text ]}) ->
      loadObjectFromHash E key s = (s, Returned (Some ∅))).
Proof.
  split.
  - intros Hv. unfold setObjectAsHash.
    rewrite encode_returned by (apply validDates_singleton, Hv).
    unfold ownFields. rewrite delete_singleton_eq, fmap_empty.
    unfold hset. rewrite decide_True by reflexivity. reflexivity.
  - intros Hk.
    rewrite (loadObjectFromHash_hash E key s _ Hk) by apply insert_non_empty.
    unfold ownFields. rewrite delete_singleton_eq, fmap_empty. reflexivity.
Qed.

Lemma proto_field_is_not_copied_witness :
  let s : store := {[ "user:1" := EHash {[ "__proto__" := "x" ]} ]} in
  setObjectAsHash utcEngine "user:1" {[ "__proto__" := VString "x" ]} ∅
  = (∅, Thrown ReplyError_wrong_arity)
  /\ loadObjectFromHash utcEngine "user:1" s = (s, Returned (Some ∅)).
Proof.
  intros s.
  destruct (proto_field_is_not_copied utcEngine "user:1" "x" (VString "x") ∅)
    as (H1 & _).
  destruct (proto_field_is_not_copied utcEngine "user:1" "x" VNull s)
    as (_ & H2).
  split; [apply H1; reflexivity|apply H2; reflexivity].
Defined.

(** ** An update without an id *)

(** X22.  [updateUser] does not check that the update has an id.  Without
    one the key is made from [undefined]: the update is written as a new
    user under the user key of ["undefined"], and the pointer of its email
    is set to the empty text, which is what the client sends for
    [undefined]; [getUserByEmail] with that email then returns [null]. *)
Theorem updateUser_without_id (E : Engine) (options : IORedisAdapterOptions)
    (updates : object) (e : string) (s : store) :
  updates !! "id" = None ->
  Js.prop updates "email" = VString e -> e <> "" ->
  validDates updates = true ->
  s !! getUserKey options "undefined" = None ->
  getUserKey options "undefined" <> getUserByEmailKey options e ->
  exists s' : store,
    updateUser E options updates s = (s', Returned updates)
    /\ s' !! getUserKey options "undefined"
       = Some (EHash (fieldText E <$> ownFields updates))
    /\ s' !! getUserByEmailKey options e = Some (EString "")
    /\ getUserByEmail E options e s' = (s', Returned None).
Proof.
  intros Hid Hemail He Hv Hfresh Hne.
  set (key := getUserKey options "undefined") in *.
  assert (Hu : getUser E options "undefined" s = (s, Returned None))
    by (rewrite getUser_run; apply loadObjectFromHash_absent, Hfresh).
  assert (Hown : ownFields updates <> ∅).
  { apply (ownFields_non_empty _ "email" (VString e)); [|discriminate].
    apply get_lookup; [exact Hemail|discriminate]. }
  assert (Hns : notString s key = true)
    by (unfold notString; rewrite Hfresh; reflexivity).
  assert (Hh : hashAt s key = ∅) by (unfold hashAt; rewrite Hfresh; reflexivity).
  set (s' := <[getUserByEmailKey options e := EString ""]>
               (hashWritten E key updates s)).
  assert (Hp : s' !! getUserByEmailKey options e = Some (EString ""))
    by apply lookup_insert_eq.
  exists s'. split; [|split; [|split; [exact Hp|]]].
  - unfold updateUser, Js.prop at 1 2. rewrite Hid. cbn [default ToString].
    rewrite (bind_returned _ _ _ _ _ Hu). cbn [default].
    unfold spread. rewrite (right_id_L ∅ (∪)). unfold setUser.
    cbn [ToString toArg]. fold key.
    rewrite (bind_returned _ _ _ _ _
               (setObjectAsHash_returned E key updates s Hv Hown Hns)).
    rewrite Hemail. cbn [truthy ToString].
    destruct (String.eqb_spec e "") as [->|_]; [contradiction|reflexivity].
  - unfold s', hashWritten. rewrite lookup_insert_ne by congruence.
    rewrite lookup_insert_eq, Hh, (right_id_L ∅ (∪)). reflexivity.
  - unfold getUserByEmail.
    rewrite (bind_returned _ _ _ _ _ (get_string _ _ _ Hp)). reflexivity.
Qed.

Lemma updateUser_without_id_witness :
  let updates : object :=
    {[ "name" := VString "B"; "email" := VString "b@x.com" ]} in
  exists s' : store,
    updateUser utcEngine defaultOptions updates ∅ = (s', Returned updates)
    /\ s' !! getUserKey defaultOptions "undefined"
       = Some (EHash (fieldText utcEngine <$> ownFields updates))
    /\ s' !! getUserByEmailKey defaultOptions "b@x.com" = Some (EString "")
    /\ getUserByEmail utcEngine defaultOptions "b@x.com" s'
       = (s', Returned None).
Proof.
  intros updates.
  apply (updateUser_without_id utcEngine defaultOptions updates "b@x.com" ∅);
    [reflexivity|reflexivity|discriminate|reflexivity|reflexivity|discriminate].
Defined.
